(** * Image triage and cropping: [classify.py] and [crop.py]

    A shallow embedding of the two scripts and the properties of their
    decision logic: the selection of the images of a directory, the
    sharpness gate, the dominant colour, the category lookup, the fan-out
    of an image into category directories, the extraction of bounding
    boxes and the pixel rectangle of a crop.

    Conventions of the embedding.
    - A Python [float] is a binary64 number: Rocq's primitive [float], whose
      operations are those of the machine.  [x > y] is [y <? x] and
      [x >= y] is [y <=? x].
    - A Python [int] is a [Z]; a [str] is a [string]; [None] is [None].
    - A response of the detection service is a tree of dictionaries.  A key
      read with [d.get(k)] is an optional field; a key read with [d[k]] is
      a plain field.
    - An exception is a value [Raise e]; what a script prints and does to
      the file system is a list of [effect]s, in order. *)

From Stdlib Require Import ZArith Floats Uint63 Lia Ascii.
From stdpp Require Import base option list strings pretty.

Set Warnings "-inexact-float".
#[local] Open Scope Z_scope.

(** ** Exceptions and effects *)

(** The built-in exceptions the two scripts can run into. *)
Inductive exn : Type :=
  | TypeError
  | ValueError
  | IndexError
  | KeyError
  | AttributeError
  | OverflowError.

(** The name of the exception's class, as a traceback prints it. *)
Definition exn_name (e : exn) : string :=
  match e with
  | TypeError => "TypeError"
  | ValueError => "ValueError"
  | IndexError => "IndexError"
  | KeyError => "KeyError"
  | AttributeError => "AttributeError"
  | OverflowError => "OverflowError"
  end.

Inductive result (A : Type) : Type :=
  | Ok (a : A)
  | Raise (e : exn).
Arguments Ok {A} a.
Arguments Raise {A} e.

#[global] Instance result_ret : MRet result := @Ok.
#[global] Instance result_bind : MBind result := λ A B f m,
  match m with
  | Ok a => f a
  | Raise e => Raise e
  end.
#[global] Instance result_fmap : FMap result := λ A B f m,
  match m with
  | Ok a => Ok (f a)
  | Raise e => Raise e
  end.

(** A pixel rectangle (left, upper, right, lower), the argument of
    [Image.crop]. *)
Record rectangle : Type := Rectangle {
  rect_left : Z;
  rect_top : Z;
  rect_right : Z;
  rect_bottom : Z
}.

Inductive effect : Type :=
  | Print (msg : string)                 (* print(msg) *)
  | Makedirs (dir : string)              (* os.makedirs(dir, exist_ok=True) *)
  | Copy (src dst : string)              (* shutil.copy(src, dst) *)
  | CropSave (box : rectangle) (path : string).
                                         (* image.crop(box).save(path) *)

(** A computation with effects: the effects performed, in order, and the
    value returned or the exception that stopped it. *)
Definition io (A : Type) : Type := (list effect * result A)%type.

#[global] Instance io_ret : MRet io := λ A a, ([], Ok a).
#[global] Instance io_bind : MBind io := λ A B f m,
  match m with
  | (t, Ok a) => let '(t', r) := f a in (t ++ t', r)
  | (t, Raise e) => (t, Raise e)
  end.

Definition perform (e : effect) : io unit := ([e], Ok tt).
Definition lift {A : Type} (r : result A) : io A := ([], r).
Definition trace {A : Type} (m : io A) : list effect := m.1.
Definition outcome {A : Type} (m : io A) : result A := m.2.

(** ** Python built-ins used by the scripts *)

Module Py.

(** [s.startswith(p)] *)
Definition startswith (s p : string) : bool := String.prefix p s.

(** [s.endswith("/")] for the one-character suffix [c]. *)
Fixpoint endswith_char (s : string) (c : ascii) : bool :=
  match s with
  | EmptyString => false
  | String a EmptyString => bool_decide (a = c)
  | String _ s' => endswith_char s' c
  end.

(** [s.split(sep)] for a one-character separator: the fields between the
    separators, never an empty list. *)
Fixpoint split (sep : ascii) (s : string) : list string :=
  match s with
  | EmptyString => [EmptyString]
  | String c s' =>
      if bool_decide (c = sep) then EmptyString :: split sep s'
      else match split sep s' with
           | field :: fields => String c field :: fields
           | [] => [String c EmptyString]
           end
  end.

(** The truth value of a list that may be [None]: [None] and the empty
    list are false. *)
Definition truth {A : Type} (xs : option (list A)) : bool :=
  match xs with
  | None | Some [] => false
  | Some (_ :: _) => true
  end.

(** [l[i]] on a list. *)
Definition index {A : Type} (l : list A) (i : nat) : result A :=
  match l !! i with
  | Some a => Ok a
  | None => Raise IndexError
  end.

(** The lines a text file yields when iterated: each line keeps its
    terminating newline; a last line without newline is yielded as is. *)
Fixpoint readlines (content : string) : list string :=
  match content with
  | EmptyString => []
  | String c rest =>
      if bool_decide (c = "010"%char) then String c EmptyString :: readlines rest
      else match readlines rest with
           | line :: lines => String c line :: lines
           | [] => [String c EmptyString]
           end
  end.

(** [str(i)] and [f"{i}"] for a natural number. *)
Definition str_of_nat (i : nat) : string := pretty i.

(** An insertion-ordered dictionary whose keys are compared with
    [key_eq]: assigning to a key that is present replaces its value and
    keeps the key and its position. *)
Section Dict.
Context {K V : Type} (key_eq : K → K → bool).

Fixpoint dict_set (d : list (K * V)) (k : K) (v : V) : list (K * V) :=
  match d with
  | [] => [(k, v)]
  | (k', v') :: d' =>
      if key_eq k' k then (k', v) :: d' else (k', v') :: dict_set d' k v
  end.

Fixpoint dict_get (d : list (K * V)) (k : K) : option V :=
  match d with
  | [] => None
  | (k', v') :: d' => if key_eq k' k then Some v' else dict_get d' k
  end.

(** [d[k]] *)
Definition dict_item (d : list (K * V)) (k : K) : result V :=
  match dict_get d k with
  | Some v => Ok v
  | None => Raise KeyError
  end.

Definition dict_keys (d : list (K * V)) : list K := d.*1.
End Dict.

(** [max(xs)] on floats: the first item is the candidate, and a later
    item replaces it when [item > candidate]. *)
Definition max_step (best item : float) : float :=
  if (best <? item)%float then item else best.

Definition max (xs : list float) : result float :=
  match xs with
  | [] => Raise ValueError
  | x :: xs' => Ok (fold_left max_step xs' x)
  end.

(** The number [(-1)^s * m * 2^e] as an integer: the number itself when
    [e] is not negative, and else the quotient [round] gives for the
    division by [2^(-e)]. *)
Definition scaled (round : Z → Z → Z) (s : bool) (m : positive) (e : Z) : Z :=
  let z := cond_Zopp s (Z.pos m) in
  if 0 <=? e then z * 2 ^ e else round z (2 ^ (- e)).

Definition to_integer (round : Z → Z → Z) (x : float) : result Z :=
  match Prim2SF x with
  | S754_nan => Raise ValueError
  | S754_infinity _ => Raise OverflowError
  | S754_zero _ => Ok 0
  | S754_finite s m e => Ok (scaled round s m e)
  end.

(** [int(x)] on a float: truncation toward zero. *)
Definition int : float → result Z := to_integer Z.quot.

(** [math.floor(x)]: the largest integer not above [x]. *)
Definition floor : float → result Z := to_integer Z.div.

(** The float an [int] becomes when it is multiplied with a float
    (exact below [2^53], to nearest above).  Used on image dimensions,
    which lie between [0] and [2^63]. *)
Definition float_of_int (n : Z) : float := of_uint63 (Uint63.of_Z n).

(** [os.path.join(a, *ps)] of posixpath. *)
Definition path_join1 (path b : string) : string :=
  if startswith b "/" then b
  else if bool_decide (path = EmptyString) || endswith_char path "/" then path +:+ b
  else path +:+ "/" +:+ b.

Definition path_join (a : string) (ps : list string) : string :=
  fold_left path_join1 ps a.

(** [os.path.join] raises [TypeError] on a component that is [None]. *)
Definition path_join_opt (a : string) (ps : list (option string)) : result string :=
  ps' ← match mapM id ps with Some l => Ok l | None => Raise TypeError end;
  Ok (path_join a ps').

(** [os.path.basename(p)] of posixpath: what follows the last slash. *)
Definition basename (p : string) : string :=
  List.last (split "/" p) EmptyString.

End Py.

(** ** The detection result

    The response of the detection service, as the scripts read it. *)

Record bounding_box : Type := {
  Width : float;
  Height : float;
  Left : float;
  Top : float
}.

Record instance : Type := {
  BoundingBox : bounding_box;              (* instance["BoundingBox"] *)
  Confidence : float                       (* instance["Confidence"] *)
}.

Record label : Type := {
  Name : string;                           (* label["Name"] *)
  Instances : option (list instance)       (* label.get("Instances") *)
}.

Record color : Type := {
  PixelPercent : option float;             (* color.get("PixelPercent", 0) *)
  SimplifiedColor : option string          (* color.get("SimplifiedColor") *)
}.

Record quality : Type := {
  Sharpness : option float                 (* .get("Sharpness", 100) *)
}.

Record image_properties : Type := {
  Quality : option quality;                (* .get("Quality", {}) *)
  DominantColors : option (list color)     (* .get("DominantColors") *)
}.

Record response : Type := {
  ImageProperties : option image_properties;   (* response.get("ImageProperties") *)
  Labels : option (list label)                 (* response.get("Labels") *)
}.

(** [for x in xs] over a value that may be [None]. *)
Definition iterable {A : Type} (xs : option (list A)) : result (list A) :=
  match xs with
  | Some l => Ok l
  | None => Raise TypeError
  end.

(** [for x in xs: body(x)]: the first exception ends the loop. *)
Fixpoint for_each {A : Type} (body : A → io unit) (xs : list A) : io unit :=
  match xs with
  | [] => mret tt
  | x :: xs' => body x;; for_each body xs'
  end.

(** ** classify.py *)

Definition CSV_SEPARATOR : ascii := ","%char.

Record default_args : Type := {
  max_label_count : Z;
  min_confidence : float;
  min_sharpness : float;
  max_image_count : Z
}.

Definition DEFAULT_ARGS : default_args := {|
  max_label_count := 10;
  min_confidence := 55.0;
  min_sharpness := 60;
  max_image_count := 20
|}.

(** [avg_sharpness], the number [is_sharp] compares with the threshold. *)
Definition avg_sharpness (image_properties : image_properties) : float :=
  default 100%float
    (Sharpness (default {| Sharpness := None |} (Quality image_properties))).

Definition is_sharp (image_properties : image_properties) (threshold : float) : bool :=
  (threshold <? avg_sharpness image_properties)%float.

(** The key of a colour in the dictionary [dominant_colors]. *)
Definition pixel_percent (c : color) : float := default 0%float (PixelPercent c).

(** The dictionary comprehension of [get_dominant_color_name].  Keys are
    compared with [==], as a dictionary compares numbers.  A key that is a
    NaN equals no key, itself included; Python finds it again by the
    identity of the object, which is outside this model: the properties of
    the dominant colour are stated for percentages that are numbers. *)
Definition dominant_colors (colors : list color) : list (float * option string) :=
  fold_left
    (λ d c, Py.dict_set PrimFloat.eqb d (pixel_percent c) (SimplifiedColor c))
    colors [].

Definition get_dominant_color_name (image_properties : image_properties)
    : result (option string) :=
  colors ← iterable (DominantColors image_properties);
  let d := dominant_colors colors in
  k ← Py.max (Py.dict_keys d);
  Py.dict_item PrimFloat.eqb d k.

(** The loop of [get_label_category] over the lines of the file. *)
Fixpoint scan_lines (label : string) (lines : list string) : result (option string) :=
  match lines with
  | [] => Ok None
  | line :: rest =>
      if Py.startswith line label
      then Some <$> Py.index (Py.split CSV_SEPARATOR line) 1
      else scan_lines label rest
  end.

(** [mapping] is the text of the file at [CATEGORIES_MAPPING_PATH], as
    [open(..., "r")] reads it. *)
Definition get_label_category (mapping : string) (label : string)
    : result (option string) :=
  scan_lines label (Py.readlines mapping).

Inductive status : Type :=
  | Skipped        (* the [continue] of a blurry image *)
  | Sorted.        (* the end of the loop body *)

Section ClassifyImage.
Variables (OUTPUT_DIR mapping : string) (args_min_sharpness : float).
Variable image_path : string.

Definition image_name : string := Py.basename image_path.
Definition labels_dir : string := Py.path_join OUTPUT_DIR ["labels"].
Definition colors_dir : string := Py.path_join OUTPUT_DIR ["colors"].

Definition make_category (_dir : string) : io unit :=
  perform (Makedirs _dir);;
  perform (Copy image_path (Py.path_join _dir [image_name])).

(** The body of [for label in labels]. *)
Definition categorize_label (l : label) : io unit :=
  if negb (Py.truth (Instances l)) then
    label_category ← lift (get_label_category mapping (Name l));
    path ← lift (Py.path_join_opt labels_dir [label_category; Some (Name l)]);
    make_category path
  else mret tt.

(** The body of [for image_path in image_paths], after the call of the
    detection service has returned [response]. *)
Definition classify_image (response : response) : io status :=
  let properties := ImageProperties response in
  let labels := Labels response in
  properties' ← lift (match properties with
                      | Some p => Ok p
                      | None => Raise AttributeError
                      end);
  if negb (is_sharp properties' args_min_sharpness) then
    perform (Print ("Image " +:+ image_path +:+
                    " is considered blurry, not classifying..."));;
    mret Skipped
  else
    dominant_color ← lift (get_dominant_color_name properties');
    colors_path ← lift (Py.path_join_opt colors_dir [dominant_color]);
    make_category colors_path;;
    labels' ← lift (iterable labels);
    for_each categorize_label labels';;
    mret Sorted.
End ClassifyImage.

(** The main loop: one detection result per image path. *)
Definition classify_images (OUTPUT_DIR mapping : string) (args_min_sharpness : float)
    (images : list (string * response)) : io unit :=
  for_each
    (λ '(image_path, response),
       classify_image OUTPUT_DIR mapping args_min_sharpness image_path response;;
       mret tt)
    images.

(** The directories an image was sorted into: the arguments of
    [make_category], in order. *)
Definition destinations (t : list effect) : list string :=
  omap (λ e, match e with Makedirs d => Some d | _ => None end) t.

(** The files written. *)
Definition copies (t : list effect) : list (string * string) :=
  omap (λ e, match e with Copy s d => Some (s, d) | _ => None end) t.

(** ** crop.py *)

(** The key of the [i]-th instance of the label [name]: [f"{name}-{i}"]. *)
Definition instance_key (name : string) (i : nat) : string :=
  name +:+ "-" +:+ Py.str_of_nat i.

(** [enumerate(xs)] *)
Definition enumerate {A : Type} (xs : list A) : list (nat * A) :=
  imap (λ i x, (i, x)) xs.

(** The inner loop of [extract_bounding_boxes], over the instances of one
    label. *)
Definition extract_label (min_confidence : float)
    (result : list (string * bounding_box)) (l : label)
    : list (string * bounding_box) :=
  let name := Name l in
  fold_left
    (λ result '(i, instance),
       if (min_confidence <=? Confidence instance)%float
       then Py.dict_set String.eqb result (instance_key name i) (BoundingBox instance)
       else result)
    (enumerate (default [] (Instances l)))
    result.

Definition extract_bounding_boxes (labels : list label) (min_confidence : float)
    : list (string * bounding_box) :=
  fold_left (extract_label min_confidence) labels [].

(** The default of the parameter [min_confidence]. *)
Definition extract_min_confidence : float := 75.0%float.

(** What [make_cropped_images] reads from the image it opened. *)
Record image : Type := {
  width : Z;
  height : Z
}.

(** The rectangle of one bounding box: the four assignments in the loop of
    [make_cropped_images]. *)
Definition pixel_rectangle (bbox : bounding_box) (width height : Z) : result rectangle :=
  left ← Py.int (Left bbox * Py.float_of_int width);
  top ← Py.int (Top bbox * Py.float_of_int height);
  w ← Py.int (Width bbox * Py.float_of_int width);
  let right := left + w in
  h ← Py.int (Height bbox * Py.float_of_int height);
  let bottom := top + h in
  Ok (Rectangle left top right bottom).

(** [image_extension] is [os.path.splitext(image_path)[1]] and [img] the
    image opened at [image_path].

    Whether [image.crop(box).save(path)] writes the crop is decided by the
    imaging library, which is not among the sources: it raises on a box
    that holds no pixel and on a path whose extension names no format, for
    instance.  [save box path] is the outcome of the two calls on the image
    opened: [Ok] when the file is written, and the exception otherwise.  A
    crop that is not written leaves no [CropSave]. *)
Definition make_cropped_images (save : rectangle → string → result unit)
    (image_extension : string) (img : image)
    (bounding_boxes : list (string * bounding_box)) (output_dir : string) : io unit :=
  for_each
    (λ '(name, bbox),
       box ← lift (pixel_rectangle bbox (width img) (height img));
       let path := Py.path_join output_dir [name +:+ image_extension] in
       lift (save box path);;
       perform (CropSave box path))
    bounding_boxes.

(** The script of crop.py, after the detection service has returned
    [response]. *)
Definition crop_main (save : rectangle → string → result unit)
    (image_extension : string) (img : image)
    (response : response) (output_dir : string) : io unit :=
  labels ← lift (iterable (Labels response));
  let bounding_boxes := extract_bounding_boxes labels extract_min_confidence in
  perform (Makedirs output_dir);;
  make_cropped_images save image_extension img bounding_boxes output_dir.

(** ** More built-ins: paths and extensions *)

Module PyStr.

(** [s.rfind(c)] for a character [c]: the index of its last occurrence,
    or [-1]. *)
Fixpoint rfind (c : ascii) (s : string) : Z :=
  match s with
  | EmptyString => -1
  | String a s' =>
      let r := rfind c s' in
      if 0 <=? r then r + 1 else if bool_decide (a = c) then 0 else -1
  end.

(** [s[:n]] *)
Fixpoint take (n : nat) (s : string) : string :=
  match n, s with
  | S n', String a s' => String a (take n' s')
  | _, _ => EmptyString
  end.

(** [s[n:]] *)
Fixpoint drop (n : nat) (s : string) : string :=
  match n, s with
  | S n', String _ s' => drop n' s'
  | _, _ => s
  end.

(** The loop of [genericpath._splitext] that skips the leading dots of the
    file name: [count] is [dotIndex - filenameIndex], the number of turns
    left. *)
Fixpoint splitext_loop (p : string) (dotIndex filenameIndex count : nat)
    : option (string * string) :=
  match count with
  | O => None
  | S count' =>
      if negb (String.eqb (take 1 (drop filenameIndex p)) ".")
      then Some (take dotIndex p, drop dotIndex p)
      else splitext_loop p dotIndex (S filenameIndex) count'
  end.

(** [os.path.splitext(p)] of posixpath. *)
Definition splitext (p : string) : string * string :=
  let sepIndex := rfind "/" p in
  let dotIndex := rfind "." p in
  if sepIndex <? dotIndex then
    let filenameIndex := sepIndex + 1 in
    match splitext_loop p (Z.to_nat dotIndex) (Z.to_nat filenameIndex)
            (Z.to_nat (dotIndex - filenameIndex)) with
    | Some r => r
    | None => (p, EmptyString)
    end
  else (p, EmptyString).

(** [c.lower()] on an ASCII character.  A character outside ASCII is left
    as it is: none of them becomes one of the letters of the supported
    extensions. *)
Definition lower_char (a : ascii) : ascii :=
  let n := nat_of_ascii a in
  if (65 <=? n)%nat && (n <=? 90)%nat then ascii_of_nat (n + 32) else a.

(** [s.lower()] *)
Fixpoint lower (s : string) : string :=
  match s with
  | EmptyString => EmptyString
  | String a s' => String (lower_char a) (lower s')
  end.

(** [s.lstrip(c)] for a character [c]. *)
Fixpoint lstrip (c : ascii) (s : string) : string :=
  match s with
  | String a s' => if bool_decide (a = c) then lstrip c s' else s
  | EmptyString => EmptyString
  end.

End PyStr.

(** ** classify.py: the images of a directory *)

Definition SUPPORTED_EXTENSIONS : list string := ["jpg"; "jpeg"; "png"].

(** The test of [get_image_paths] on a file name:
    [ext[1].lower().lstrip(".") in SUPPORTED_EXTENSIONS]. *)
Definition has_supported_extension (filename : string) : bool :=
  let ext := PyStr.splitext filename in
  bool_decide (PyStr.lstrip "." (PyStr.lower ext.2) ∈ SUPPORTED_EXTENSIONS).

(** The value of a command-line argument: an [int], or the [str] that
    [argparse] hands over for an option without [type]. *)
Inductive arg_value : Type :=
  | ArgInt (n : Z)
  | ArgStr (s : string).

(** [args.max_image_count]: the option has a default and no [type], so it
    is the default [int] when the option is absent and the text of the
    command line when it is given. *)
Definition args_max_image_count (given : option string) : arg_value :=
  match given with
  | None => ArgInt (max_image_count DEFAULT_ARGS)
  | Some text => ArgStr text
  end.

(** [len(images) == max]: an [int] never equals a [str]. *)
Definition len_equals {A : Type} (images : list A) (max : arg_value) : bool :=
  match max with
  | ArgInt n => Z.of_nat (length images) =? n
  | ArgStr _ => false
  end.

(** The loop of [get_image_paths] over the listing of the directory.  An
    entry of the listing is a file name and whether [os.path.isfile] holds
    of its path. *)
Fixpoint get_image_paths_loop (images_dir : string) (max : arg_value)
    (listing : list (string * bool)) (images : list string) : list string :=
  match listing with
  | [] => images
  | (filename, isfile) :: rest =>
      let image_path := Py.path_join images_dir [filename] in
      let images :=
        if isfile && has_supported_extension filename
        then images ++ [image_path] else images in
      if len_equals images max then images
      else get_image_paths_loop images_dir max rest images
  end.

Definition get_image_paths (images_dir : string) (max : arg_value)
    (listing : list (string * bool)) : list string :=
  get_image_paths_loop images_dir max listing [].

(** The paths of the images of a listing: the regular files with a
    supported extension, in the order of the listing. *)
Definition image_paths (images_dir : string) (listing : list (string * bool))
    : list string :=
  omap (λ '(filename, isfile),
          if isfile && has_supported_extension filename
          then Some (Py.path_join images_dir [filename]) else None)
       listing.

(** [s] has no character [c]. *)
Fixpoint lacks (c : ascii) (s : string) : Prop :=
  match s with
  | EmptyString => True
  | String a s' => a ≠ c ∧ lacks c s'
  end.

(** ** The specification's reading of the components

    Definitions that follow the words of the specification, to be compared
    with the code above. *)

Module Spec.

(** The category mapping as a table of (label prefix, category). *)
Definition mapping_table : Type := list (string * string).

(** Modelled from the spec: the category mapping file, [categories.csv],
    which is not among the sources.  It holds one line per entry of the
    table, the text before the first comma being the key and the text
    after it the category. *)
Definition mapping_file (table : mapping_table) : string :=
  foldr (λ '(key, category) rest,
           key +:+ String "," (category +:+ String "010" rest))
        EmptyString table.

(** A string that holds no end of line: no line feed, and no carriage
    return, which [open(..., "r")] reads as one. *)
Definition one_line (s : string) : Prop := lacks "010" s ∧ lacks "013" s.

(** A table that such a file can hold, so that the text read is the text
    of the file: no comma and no end of line inside a key or a category. *)
Definition table_wf (table : mapping_table) : Prop :=
  Forall (λ '(key, category),
            (lacks "," key ∧ one_line key) ∧
            (lacks "," category ∧ one_line category))
         table.

(** CategoryResolver.resolve: the category of the first entry whose key
    is a prefix of the label name. *)
Definition resolve (table : mapping_table) (label_name : string) : option string :=
  snd <$> find (λ '(key, _), String.prefix key label_name) table.

End Spec.

(** ** Notions used in the statements *)

(** [x] is a number when it is not a NaN: [x == x]. *)
Definition is_number (x : float) : Prop := is_nan x = false.

(** The sharpness measurement a detection result carries, if any. *)
Definition sharpness_of (props : image_properties) : option float :=
  Quality props ≫= Sharpness.

(** The message printed for an image that is not sharp. *)
Definition blurry_message (image_path : string) : string :=
  "Image " +:+ image_path +:+ " is considered blurry, not classifying...".

(** The effects of [make_category]. *)
Definition category_effects (image_path _dir : string) : list effect :=
  [Makedirs _dir; Copy image_path (Py.path_join _dir [image_name image_path])].

(** The destinations of the labels of an image, given the category of
    each label without instances: one for each such label, none for a
    label with instances. *)
Definition label_destinations (OUTPUT_DIR : string) (category : label → string)
    (labels : list label) : list string :=
  labels ≫= λ l,
    if Py.truth (Instances l) then []
    else [Py.path_join (labels_dir OUTPUT_DIR) [category l; Name l]].

(** A float whose sign bit is clear, a zero or a NaN. *)
Definition SFnot_negative (x : spec_float) : Prop :=
  match x with
  | S754_finite true _ _ | S754_infinity true => False
  | _ => True
  end.

(** A float that is a zero or a finite number. *)
Definition SFfinite (x : spec_float) : Prop :=
  match x with
  | S754_zero _ | S754_finite _ _ _ => True
  | _ => False
  end.

(** A fraction of the image size: a float between zero and one. *)
Definition fraction (x : float) : Prop :=
  (0 <=? x)%float = true ∧ (x <=? 1)%float = true.

Abbreviation float_dict_get := (Py.dict_get PrimFloat.eqb).

Abbreviation box_dict_get := (Py.dict_get String.eqb).

(** A string without a dash. *)
Abbreviation no_dash := (lacks "-"%char).

(** [instance["Confidence"] >= min_confidence] *)
Definition confident (min_confidence : float) (inst : instance) : bool :=
  (min_confidence <=? Confidence inst)%float.

(** The instances of a label with their keys, in the order of the loop. *)
Definition label_entries (l : label) : list (string * instance) :=
  (λ '(i, inst), (instance_key (Name l) i, inst))
    <$> enumerate (default [] (Instances l)).

(** One turn of the inner loop of [extract_bounding_boxes]. *)
Definition extract_step (min_confidence : float)
    (result : list (string * bounding_box)) (e : string * instance)
    : list (string * bounding_box) :=
  if confident min_confidence e.2
  then Py.dict_set String.eqb result e.1 (BoundingBox e.2)
  else result.

(** The line of an entry in the mapping file. *)
Definition entry_line (e : string * string) : string :=
  e.1 +:+ String "," (e.2 +:+ String "010" EmptyString).

(** [s] without the line feed that ends it, if one does. *)
Fixpoint chomp (s : string) : string :=
  match s with
  | EmptyString => EmptyString
  | String c s' =>
      match s' with
      | EmptyString => if bool_decide (c = "010"%char) then EmptyString else s
      | String _ _ => String c (chomp s')
      end
  end.

(** The answer of [get_label_category], the end of the line aside. *)
Definition category_text (answer : result (option string)) : result (option string) :=
  (λ category : option string, chomp <$> category) <$> answer.

(** An entry of a listing is an image when it is a regular file whose
    name has a supported extension. *)
Definition is_image (entry : string * bool) : bool :=
  entry.2 && has_supported_extension entry.1.

(** A string of dots only, the empty string included. *)
Definition all_dots (s : string) : Prop := PyStr.lstrip "." s = EmptyString.

(** The path of the crop of the entry [name]. *)
Definition crop_path (image_extension output_dir name : string) : string :=
  Py.path_join output_dir [name +:+ image_extension].

(** The crops of a dictionary of bounding boxes, given the rectangle of
    each entry. *)
Definition crop_effects (image_extension output_dir : string)
    (bounding_boxes : list (string * bounding_box)) (rects : list rectangle)
    : list effect :=
  zip_with (λ e r, CropSave r (crop_path image_extension output_dir e.1))
    bounding_boxes rects.

(** A bounding box inside the image: its four fields are fractions. *)
Definition fraction_box (bbox : bounding_box) : Prop :=
  (fraction (Left bbox) ∧ fraction (Top bbox)) ∧
  (fraction (Width bbox) ∧ fraction (Height bbox)).

(** A rectangle whose corners are in order, in the quadrant of the image. *)
Definition rectangle_wf (r : rectangle) : Prop :=
  0 <= rect_left r <= rect_right r ∧ 0 <= rect_top r <= rect_bottom r.

(** The instances that pass the threshold, with their keys, in the order
    of the loops of [extract_bounding_boxes]. *)
Definition confident_entries (labels : list label) (min_confidence : float)
    : list (string * bounding_box) :=
  (λ e, (e.1, BoundingBox e.2))
    <$> filter (λ e, confident min_confidence e.2 = true) (labels ≫= label_entries).

(** ** Sample inputs *)

Definition sample_box : bounding_box :=
  {| Left := 0.1; Top := 0.2; Width := 0.5; Height := 0.5 |}.

Definition sample_colors : list color :=
  [ {| PixelPercent := Some 30%float; SimplifiedColor := Some "Red" |};
    {| PixelPercent := Some 70%float; SimplifiedColor := Some "Blue" |} ].

Definition sample_properties (sharpness : option float) : image_properties :=
  {| Quality := Some {| Sharpness := sharpness |};
     DominantColors := Some sample_colors |}.

(** A label of the whole image and a label with three instances. *)
Definition sky : label := {| Name := "Sky"; Instances := Some [] |}.

Definition car : label :=
  {| Name := "Car";
     Instances := Some
       [ {| BoundingBox := sample_box; Confidence := 80 |};
         {| BoundingBox := sample_box; Confidence := 74.999 |};
         {| BoundingBox := sample_box; Confidence := 75.0 |} ] |}.

Definition sample_response (sharpness : option float) : response :=
  {| ImageProperties := Some (sample_properties sharpness);
     Labels := Some [sky; car] |}.

Definition sample_mapping : string :=
  Spec.mapping_file [("Sky", "Nature"); ("Car", "Vehicles")].

(** Two observations with the same, largest percentage. *)
Definition tied_colors : list color :=
  [ {| PixelPercent := Some 50%float; SimplifiedColor := Some "A" |};
    {| PixelPercent := Some 20%float; SimplifiedColor := Some "C" |};
    {| PixelPercent := Some 50%float; SimplifiedColor := Some "B" |} ].

(** The category of the sample labels in [sample_mapping]. *)
Definition sample_category (l : label) : string :=
  if String.eqb (Name l) "Sky" then "Nature" +:+ String "010" EmptyString
  else "Vehicles" +:+ String "010" EmptyString.

(** A label of the whole image that the sample mapping does not list, and
    that comes without the key [Instances]. *)
Definition tree : label := {| Name := "Tree"; Instances := None |}.

(** Two labels with the same name. *)
Definition car_far : label :=
  {| Name := "Car";
     Instances := Some [ {| BoundingBox := sample_box; Confidence := 50 |} ] |}.

Definition car_near : label :=
  {| Name := "Car";
     Instances := Some
       [ {| BoundingBox := {| Left := 0.5; Top := 0.5; Width := 0.25; Height := 0.25 |};
            Confidence := 90 |} ] |}.

(** The listing of a directory: three images, a text file, a directory
    named like an image and a hidden file named like an extension. *)
Definition sample_listing : list (string * bool) :=
  [ ("a.png", true); ("notes.txt", true); ("b.JPG", true);
    ("dir.jpg", false); (".jpeg", true); ("c.tar.jpeg", true) ].

(** A box whose left edge is not a number. *)
Definition nan_box : bounding_box :=
  {| Left := nan; Top := 0.2; Width := 0.5; Height := 0.5 |}.

(** A box inside the image that is too narrow to hold a pixel of an image
    1000 pixels wide. *)
Definition thin_box : bounding_box :=
  {| Left := 0.1; Top := 0.2; Width := 0.0005; Height := 0.5 |}.

(** An imaging library that writes every crop but one without pixels, on
    which it raises [ValueError]. *)
Definition sample_save (box : rectangle) (path : string) : result unit :=
  if (rect_left box <? rect_right box) && (rect_top box <? rect_bottom box)
  then Ok tt else Raise ValueError.

(** * Properties *)

(** ** The effect monad *)

Lemma io_bind_ok {A B : Type} (t : list effect) (a : A) (f : A → io B) :
  ((t, Ok a) : io A) ≫= f = (t ++ (f a).1, (f a).2).
Proof. unfold mbind, io_bind. by destruct (f a). Qed.

Lemma io_bind_raise {A B : Type} (t : list effect) (e : exn) (f : A → io B) :
  ((t, Raise e) : io A) ≫= f = (t, Raise e).
Proof. done. Qed.

Lemma lift_bind_ok {A B : Type} (a : A) (f : A → io B) : lift (Ok a) ≫= f = f a.
Proof. unfold lift. rewrite io_bind_ok. by destruct (f a). Qed.

Lemma lift_bind_raise {A B : Type} (e : exn) (f : A → io B) :
  lift (Raise e) ≫= f = ([], Raise e).
Proof. done. Qed.

Lemma perform_bind {B : Type} (e : effect) (f : unit → io B) :
  perform e ≫= f = (e :: (f tt).1, (f tt).2).
Proof. unfold perform. by rewrite io_bind_ok. Qed.

Lemma for_each_app_ok {A : Type} (body : A → io unit) (xs ys : list A) (t : list effect) :
  for_each body xs = (t, Ok tt) →
  for_each body (xs ++ ys)
  = (t ++ trace (for_each body ys), outcome (for_each body ys)).
Proof.
  revert t. induction xs as [|x xs IH]; intros t.
  { intros [= <-]. simpl. by destruct (for_each body ys). }
  simpl. destruct (body x) as [t1 [[]|e1]]; [|done].
  rewrite !io_bind_ok. destruct (for_each body xs) as [t2 [[]|e2]]; [|done].
  intros [= <-]. rewrite (IH t2 eq_refl). simpl. by rewrite app_assoc.
Qed.

Lemma for_each_app_raise {A : Type} (body : A → io unit) (xs ys : list A)
    (t : list effect) (e : exn) :
  for_each body xs = (t, Raise e) →
  for_each body (xs ++ ys) = (t, Raise e).
Proof.
  revert t. induction xs as [|x xs IH]; intros t; [done|].
  simpl. destruct (body x) as [t1 [[]|e1]]; [|done].
  rewrite !io_bind_ok. destruct (for_each body xs) as [t2 [[]|e2]]; [done|].
  intros [= <- <-]. by rewrite (IH t2 eq_refl).
Qed.

Lemma for_each_cons_raise {A : Type} (body : A → io unit) (x : A) (xs : list A)
    (t : list effect) (e : exn) :
  body x = (t, Raise e) → for_each body (x :: xs) = (t, Raise e).
Proof. intros H. simpl. by rewrite H. Qed.

Lemma destinations_cons (e : effect) (t : list effect) :
  destinations (e :: t) =
    match e with
    | Makedirs d => d :: destinations t
    | _ => destinations t
    end.
Proof. by destruct e. Qed.

Lemma destinations_app (t1 t2 : list effect) :
  destinations (t1 ++ t2) = destinations t1 ++ destinations t2.
Proof. apply omap_app. Qed.

(** ** The order of floats

    [<?], [<=?] and [=?] compare the numbers two floats stand for; a NaN
    compares false with everything.  The tactics below go through the cases
    of the comparison of [SpecFloat]. *)

Ltac sf_destruct :=
  repeat match goal with
         | x : spec_float |- _ => destruct x as [[]|[]| |[] ? ?]
         end.

Ltac cmp_cases :=
  repeat match goal with
         | H : context [Z.compare ?a ?b] |- _ => destruct (Z.compare_spec a b)
         | |- context [Z.compare ?a ?b] => destruct (Z.compare_spec a b)
         | H : context [Pos.compare_cont Eq ?a ?b] |- _ =>
             change (Pos.compare_cont Eq a b) with (Pos.compare a b) in H
         | |- context [Pos.compare_cont Eq ?a ?b] =>
             change (Pos.compare_cont Eq a b) with (Pos.compare a b)
         | H : context [Pos.compare ?a ?b] |- _ => destruct (Pos.compare_spec a b)
         | |- context [Pos.compare ?a ?b] => destruct (Pos.compare_spec a b)
         end.

Ltac sf_solve :=
  unfold SFleb, SFltb, SFeqb; intros; sf_destruct; simpl in *; try done;
  cmp_cases; simpl in *; try done; try lia.

Module SFOrder.

Lemma sf_leb_refl x : x ≠ S754_nan → SFleb x x = true.
Proof. sf_solve. Qed.

Lemma sf_leb_trans x y z : SFleb x y = true → SFleb y z = true → SFleb x z = true.
Proof. sf_solve. Qed.

Lemma sf_leb_total x y :
  x ≠ S754_nan → y ≠ S754_nan → SFltb x y = true ∨ SFleb y x = true.
Proof. sf_solve; auto. Qed.

Lemma sf_ltb_leb x y : SFltb x y = true → SFleb x y = true.
Proof. sf_solve. Qed.

Lemma sf_ltb_not_leb x y : SFltb x y = true → SFleb y x = false.
Proof. sf_solve. Qed.

Lemma sf_eqb_leb x y : SFeqb x y = true → SFleb x y = true.
Proof. sf_solve. Qed.

Lemma sf_eqb_sym x y : SFeqb x y = SFeqb y x.
Proof. sf_solve. Qed.

Lemma sf_eqb_trans x y z : SFeqb x y = true → SFeqb y z = true → SFeqb x z = true.
Proof. sf_solve. Qed.

Lemma sf_leb_not_eqb x y : SFleb x y = true → SFeqb x y = false → SFltb x y = true.
Proof. sf_solve. Qed.

Lemma sf_eqb_refl_number x : SFeqb x x = true ↔ x ≠ S754_nan.
Proof. split; [by intros H ->|sf_solve]. Qed.

(** A float that is not below zero is a zero, a positive number or
    [+infinity]. *)
Lemma sf_leb_zero x :
  SFleb (S754_zero false) x = true →
  (∃ s, x = S754_zero s) ∨ (∃ m e, x = S754_finite false m e) ∨ x = S754_infinity false.
Proof. unfold SFleb; intros; sf_destruct; simpl in *; try done; eauto. Qed.

End SFOrder.

Module FloatOrder.

Lemma number_spec x : is_number x ↔ Prim2SF x ≠ S754_nan.
Proof.
  unfold is_number, is_nan. rewrite FloatAxioms.eqb_spec, negb_false_iff.
  apply SFOrder.sf_eqb_refl_number.
Qed.

Lemma leb_refl x : is_number x → (x <=? x)%float = true.
Proof. rewrite number_spec, FloatAxioms.leb_spec. apply SFOrder.sf_leb_refl. Qed.

Lemma leb_trans x y z :
  (x <=? y)%float = true → (y <=? z)%float = true → (x <=? z)%float = true.
Proof. rewrite !FloatAxioms.leb_spec. apply SFOrder.sf_leb_trans. Qed.

Lemma leb_total x y :
  is_number x → is_number y → (x <? y)%float = true ∨ (y <=? x)%float = true.
Proof. rewrite !number_spec, FloatAxioms.ltb_spec, FloatAxioms.leb_spec. apply SFOrder.sf_leb_total. Qed.

Lemma ltb_leb x y : (x <? y)%float = true → (x <=? y)%float = true.
Proof. rewrite FloatAxioms.ltb_spec, FloatAxioms.leb_spec. apply SFOrder.sf_ltb_leb. Qed.

Lemma ltb_not_leb x y : (x <? y)%float = true → (y <=? x)%float = false.
Proof. rewrite FloatAxioms.ltb_spec, FloatAxioms.leb_spec. apply SFOrder.sf_ltb_not_leb. Qed.

Lemma eqb_leb x y : (x =? y)%float = true → (x <=? y)%float = true.
Proof. rewrite FloatAxioms.eqb_spec, FloatAxioms.leb_spec. apply SFOrder.sf_eqb_leb. Qed.

Lemma eqb_sym x y : (x =? y)%float = (y =? x)%float.
Proof. rewrite !FloatAxioms.eqb_spec. apply SFOrder.sf_eqb_sym. Qed.

Lemma eqb_trans x y z :
  (x =? y)%float = true → (y =? z)%float = true → (x =? z)%float = true.
Proof. rewrite !FloatAxioms.eqb_spec. apply SFOrder.sf_eqb_trans. Qed.

Lemma eqb_refl x : is_number x → (x =? x)%float = true.
Proof. unfold is_number, is_nan. by rewrite negb_false_iff. Qed.

Lemma leb_not_eqb x y :
  (x <=? y)%float = true → (x =? y)%float = false → (x <? y)%float = true.
Proof. rewrite FloatAxioms.leb_spec, FloatAxioms.eqb_spec, FloatAxioms.ltb_spec. apply SFOrder.sf_leb_not_eqb. Qed.

End FloatOrder.

(** ** Dictionaries *)

Section DictFacts.
Context {K V : Type} (key_eq : K → K → bool).
Hypothesis key_eq_sym : ∀ a b, key_eq a b = key_eq b a.
Hypothesis key_eq_trans :
  ∀ a b c, key_eq a b = true → key_eq b c = true → key_eq a c = true.

(** Reading a dictionary after an assignment. *)
Lemma dict_get_set (d : list (K * V)) k0 v k :
  Py.dict_get key_eq (Py.dict_set key_eq d k0 v) k =
    if key_eq k0 k then Some v else Py.dict_get key_eq d k.
Proof using key_eq_sym key_eq_trans.
  induction d as [|[k' v'] d IH]; simpl; [done|].
  destruct (key_eq k' k0) eqn:E0; simpl.
  - destruct (key_eq k0 k) eqn:E1.
    + by rewrite (key_eq_trans _ _ _ E0 E1).
    + destruct (key_eq k' k) eqn:E2; [|done].
      rewrite key_eq_sym in E0. by rewrite (key_eq_trans _ _ _ E0 E2) in E1.
  - rewrite IH. destruct (key_eq k' k) eqn:E2; [|done].
    destruct (key_eq k0 k) eqn:E1; [|done].
    rewrite key_eq_sym in E1. by rewrite (key_eq_trans _ _ _ E2 E1) in E0.
Qed.

Lemma dict_keys_set (d : list (K * V)) k v x :
  x ∈ Py.dict_keys (Py.dict_set key_eq d k v) → x = k ∨ x ∈ Py.dict_keys d.
Proof.
  unfold Py.dict_keys. induction d as [|[k' v'] d IH]; simpl.
  - intros ->%list_elem_of_singleton. by left.
  - destruct (key_eq k' k); simpl; [by right|].
    intros [->|Hx]%elem_of_cons; [right; left|].
    destruct (IH Hx); [by left|right; by right].
Qed.

Lemma dict_set_nonempty (d : list (K * V)) k v : Py.dict_set key_eq d k v ≠ [].
Proof. destruct d as [|[k' v'] d]; simpl; [done|]. by destruct (key_eq k' k). Qed.

Lemma dict_get_is_Some (d : list (K * V)) k :
  is_Some (Py.dict_get key_eq d k) ↔
  ∃ k', k' ∈ Py.dict_keys d ∧ key_eq k' k = true.
Proof.
  unfold Py.dict_keys. induction d as [|[k' v'] d IH]; simpl.
  - split; [by intros []|]. by intros (? & ?%elem_of_nil & _).
  - destruct (key_eq k' k) eqn:E.
    + split; [|by eauto]. intros _. exists k'. split; [left|done].
    + rewrite IH. split.
      * intros (x & ? & ?). exists x. split; [by right|done].
      * intros (x & [->|?]%elem_of_cons & Hx); [congruence|eauto].
Qed.
End DictFacts.

(** ** [max] *)

Lemma fold_max_spec (xs : list float) (best : float) :
  is_number best → Forall is_number xs →
  let m := fold_left Py.max_step xs best in
  (m = best ∨ m ∈ xs) ∧ is_number m ∧
  (best <=? m)%float = true ∧ ∀ x, x ∈ xs → (x <=? m)%float = true.
Proof.
  revert best. induction xs as [|x xs IH]; simpl; intros best Hb Hxs.
  - repeat split; [by left|done|by apply FloatOrder.leb_refl|].
    by intros ? ?%elem_of_nil.
  - apply Forall_cons in Hxs as [Hx Hxs].
    assert (is_number (Py.max_step best x) ∧
            (best <=? Py.max_step best x)%float = true ∧
            (x <=? Py.max_step best x)%float = true) as (Hn & Hb' & Hx').
    { unfold Py.max_step. destruct (FloatOrder.leb_total best x Hb Hx) as [Hlt|Hle].
      - rewrite Hlt. auto using FloatOrder.ltb_leb, FloatOrder.leb_refl.
      - destruct (best <? x)%float eqn:Hlt.
        + auto using FloatOrder.ltb_leb, FloatOrder.leb_refl.
        + auto using FloatOrder.leb_refl. }
    destruct (IH _ Hn Hxs) as (Hin & Hm & Hle & Hall).
    repeat split; [| done | by eapply FloatOrder.leb_trans |].
    + destruct Hin as [->|Hin]; [|right; by right].
      unfold Py.max_step. destruct (best <? x)%float; [right; left|by left].
    + intros y [->|Hy]%elem_of_cons; [by eapply FloatOrder.leb_trans|by apply Hall].
Qed.

Lemma max_spec (xs : list float) :
  xs ≠ [] → Forall is_number xs →
  ∃ m, Py.max xs = Ok m ∧ m ∈ xs ∧ is_number m ∧
       ∀ x, x ∈ xs → (x <=? m)%float = true.
Proof.
  destruct xs as [|x xs]; [done|]. intros _ [Hx Hxs]%Forall_cons.
  destruct (fold_max_spec xs x Hx Hxs) as (Hin & Hm & Hle & Hall).
  eexists. split; [reflexivity|]. repeat split; [|done|].
  - destruct Hin as [->|Hin]; [left|by right].
  - by intros y [->|Hy]%elem_of_cons; [|apply Hall].
Qed.

(** ** The dominant colour *)

Lemma dominant_colors_snoc (colors : list color) (c : color) :
  dominant_colors (colors ++ [c]) =
  Py.dict_set PrimFloat.eqb (dominant_colors colors) (pixel_percent c) (SimplifiedColor c).
Proof. unfold dominant_colors. by rewrite fold_left_app. Qed.

(** Later observations overwrite earlier ones: the dictionary holds, for a
    key, the colour name of the last observation with that percentage. *)
Lemma dominant_colors_get (colors : list color) (k : float) :
  float_dict_get (dominant_colors colors) k =
  SimplifiedColor <$> find (λ c, (pixel_percent c =? k)%float) (reverse colors).
Proof.
  induction colors as [|c colors IH] using rev_ind; [done|].
  rewrite dominant_colors_snoc, reverse_snoc.
  rewrite (dict_get_set _ FloatOrder.eqb_sym FloatOrder.eqb_trans).
  simpl. by destruct (pixel_percent c =? k)%float.
Qed.

Lemma dominant_colors_keys (colors : list color) (k : float) :
  k ∈ Py.dict_keys (dominant_colors colors) →
  ∃ c, c ∈ colors ∧ k = pixel_percent c.
Proof.
  induction colors as [|c colors IH] using rev_ind.
  - by intros ?%elem_of_nil.
  - rewrite dominant_colors_snoc. intros [->|Hk]%dict_keys_set.
    + exists c. split; [|done]. apply elem_of_app. right. left.
    + destruct (IH Hk) as (c' & ? & ?). exists c'. split; [|done].
      apply elem_of_app. by left.
Qed.

Lemma dominant_colors_nonempty (colors : list color) :
  colors ≠ [] → Py.dict_keys (dominant_colors colors) ≠ [].
Proof.
  destruct colors as [|c colors _] using rev_ind; [done|]. intros _.
  rewrite dominant_colors_snoc. unfold Py.dict_keys.
  intros ?%fmap_nil_inv. by eapply dict_set_nonempty.
Qed.

(** [find] on a reversed list finds the last match. *)
Lemma find_reverse_Some {A : Type} (p : A → bool) (l : list A) (x : A) :
  find p (reverse l) = Some x →
  ∃ pre post, l = pre ++ x :: post ∧ p x = true ∧ Forall (λ y, p y = false) post.
Proof.
  induction l as [|y l IH] using rev_ind; [done|].
  rewrite reverse_snoc. simpl. destruct (p y) eqn:E.
  - intros [= ->]. exists l, []. by rewrite E.
  - intros (pre & post & -> & ? & ?)%IH. exists pre, (post ++ [y]).
    rewrite <-app_assoc. split; [done|]. split; [done|].
    apply Forall_app. split; [done|]. by apply Forall_singleton.
Qed.

(** The colour name returned is that of the last observation, in input
    order, among those with the largest percentage. *)
Lemma dominant_color_last_max (props : image_properties) (colors : list color) :
  DominantColors props = Some colors →
  colors ≠ [] →
  Forall (λ c, is_number (pixel_percent c)) colors →
  ∃ pre c post,
    colors = pre ++ c :: post ∧
    Forall (λ c', (pixel_percent c' <=? pixel_percent c)%float = true) pre ∧
    Forall (λ c', (pixel_percent c' <? pixel_percent c)%float = true) post ∧
    get_dominant_color_name props = Ok (SimplifiedColor c).
Proof.
  intros Hprops Hne Hnum. unfold get_dominant_color_name. rewrite Hprops. simpl.
  set (d := dominant_colors colors).
  assert (Forall is_number (Py.dict_keys d)) as Hkeys.
  { apply Forall_forall. intros k (c & Hc & ->)%dominant_colors_keys.
    by eapply Forall_forall in Hnum. }
  destruct (max_spec (Py.dict_keys d)) as (m & -> & Hm & Hmnum & Hmax);
    [by apply dominant_colors_nonempty|done|].
  simpl. unfold Py.dict_item.
  assert (is_Some (float_dict_get d m)) as [v Hv].
  { apply dict_get_is_Some. exists m. by split; [|apply FloatOrder.eqb_refl]. }
  rewrite Hv. unfold d in Hv. rewrite dominant_colors_get in Hv.
  destruct (find _ _) as [c|] eqn:Hfind; [|done]. injection Hv as <-.
  apply find_reverse_Some in Hfind as (pre & post & -> & Hcm & Hpost).
  exists pre, c, post. split; [done|].
  assert (∀ c', c' ∈ pre ++ c :: post →
                (pixel_percent c' <=? pixel_percent c)%float = true) as Hle.
  { intros c' Hc'.
    assert (is_number (pixel_percent c')) as Hn by by eapply Forall_forall in Hnum.
    assert (is_Some (float_dict_get d (pixel_percent c'))) as Hsome.
    { unfold d. rewrite dominant_colors_get.
      destruct (find _ _) eqn:Hf; [by eexists|].
      eapply find_none in Hf; [|apply list_elem_of_In, elem_of_reverse, Hc'].
      by rewrite FloatOrder.eqb_refl in Hf. }
    apply dict_get_is_Some in Hsome as (k & Hk & Hkc).
    eapply FloatOrder.leb_trans; [|eapply FloatOrder.leb_trans].
    - apply FloatOrder.eqb_leb. by rewrite FloatOrder.eqb_sym.
    - by apply Hmax.
    - apply FloatOrder.eqb_leb. by rewrite FloatOrder.eqb_sym. }
  split; [|split; [|done]].
  - apply Forall_forall. intros c' Hc'. apply Hle, elem_of_app. by left.
  - apply Forall_forall. intros c' Hc'. apply FloatOrder.leb_not_eqb.
    + apply Hle, elem_of_app. right. by right.
    + destruct (pixel_percent c' =? pixel_percent c)%float eqn:E; [|done].
      eapply Forall_forall in Hpost; [|exact Hc']. simpl in Hpost.
      by rewrite (FloatOrder.eqb_trans _ _ _ E Hcm) in Hpost.
Qed.

Lemma find_reverse_last {A : Type} (p : A → bool) (pre post : list A) (x : A) :
  p x = true → Forall (λ y, p y = false) post →
  find p (reverse (pre ++ x :: post)) = Some x.
Proof.
  intros Hx. induction post as [|y post IH] using rev_ind; intros Hpost.
  - rewrite reverse_snoc. simpl. by rewrite Hx.
  - apply Forall_app in Hpost as [Hpost Hy]. apply Forall_inv in Hy.
    replace (pre ++ x :: post ++ [y]) with ((pre ++ x :: post) ++ [y])
      by by rewrite <-app_assoc.
    rewrite reverse_snoc. simpl in *. rewrite Hy. by apply IH.
Qed.

(** C7. For a non-empty list of colour observations whose percentages are
    numbers and pairwise distinct, [get_dominant_color_name] returns the
    colour name of the observation whose percentage is above all others;
    for (30, Red), (70, Blue) it returns Blue. *)
Theorem dominant_color_is_maximum :
  (∀ (props : image_properties) (colors : list color),
     DominantColors props = Some colors →
     colors ≠ [] →
     Forall (λ c, is_number (pixel_percent c)) colors →
     (∀ i j ci cj, colors !! i = Some ci → colors !! j = Some cj → i ≠ j →
                   (pixel_percent ci =? pixel_percent cj)%float = false) →
     ∃ i c,
       colors !! i = Some c ∧
       (∀ j c', colors !! j = Some c' → j ≠ i →
                (pixel_percent c' <? pixel_percent c)%float = true) ∧
       get_dominant_color_name props = Ok (SimplifiedColor c)) ∧
  get_dominant_color_name (sample_properties None) = Ok (Some "Blue").
Proof.
  split; [|done]. intros props colors Hprops Hne Hnum Hdistinct.
  destruct (dominant_color_last_max props colors Hprops Hne Hnum)
    as (pre & c & post & -> & Hpre & Hpost & Hres).
  assert ((pre ++ c :: post) !! length pre = Some c) as Hc
    by by rewrite list_lookup_middle.
  exists (length pre), c. split; [done|]. split; [|done].
  intros j c' Hj Hne'.
  destruct (decide (j < length pre)%nat) as [Hlt|Hge].
  - apply FloatOrder.leb_not_eqb; [|by eapply Hdistinct].
    eapply Forall_forall in Hpre; [exact Hpre|].
    rewrite lookup_app_l in Hj by done. by eapply list_elem_of_lookup_2.
  - eapply Forall_forall in Hpost; [exact Hpost|].
    rewrite lookup_app_r in Hj by lia.
    destruct (j - length pre)%nat as [|n] eqn:E; [lia|].
    by eapply list_elem_of_lookup_2.
Qed.

Lemma dominant_color_is_maximum_witness :
  ∃ i c,
    sample_colors !! i = Some c ∧
    (∀ j c', sample_colors !! j = Some c' → j ≠ i →
             (pixel_percent c' <? pixel_percent c)%float = true) ∧
    get_dominant_color_name (sample_properties None) = Ok (SimplifiedColor c).
Proof.
  apply (proj1 dominant_color_is_maximum (sample_properties None) sample_colors).
  - reflexivity.
  - discriminate.
  - repeat constructor.
  - intros [|[|i]] [|[|j]] ci cj Hi Hj Hij; simplify_eq/=; done.
Defined.

(** C8, as the code has it.  On an empty list of colour observations
    [get_dominant_color_name] fails with the [ValueError] that [max] raises
    on an empty sequence. *)
Theorem dominant_color_empty_raises (props : image_properties) :
  DominantColors props = Some [] →
  get_dominant_color_name props = Raise ValueError.
Proof. intros H. unfold get_dominant_color_name. by rewrite H. Qed.

Lemma dominant_color_empty_raises_witness :
  get_dominant_color_name {| Quality := None; DominantColors := Some [] |}
  = Raise ValueError.
Proof. apply dominant_color_empty_raises. reflexivity. Defined.

(** C8, as the specification has it, fails: the exception raised on the
    empty list of observations is not an [InvalidInput]. *)
Lemma dominant_color_empty_not_InvalidInput :
  ∃ e, get_dominant_color_name {| Quality := None; DominantColors := Some [] |}
       = Raise e ∧
       exn_name e ≠ "InvalidInput".
Proof. exists ValueError. by split. Qed.

(** C10. In the dictionary of [get_dominant_color_name] a later observation
    overwrites an earlier one with the same percentage, and the colour name
    returned is that of the last observation, in input order, among those
    with the largest percentage. *)
Theorem dominant_color_ties_to_last (props : image_properties) (colors : list color) :
  DominantColors props = Some colors →
  Forall (λ c, is_number (pixel_percent c)) colors →
  (∀ pre c post,
     colors = pre ++ c :: post →
     Forall (λ c', (pixel_percent c' =? pixel_percent c)%float = false) post →
     float_dict_get (dominant_colors colors) (pixel_percent c)
     = Some (SimplifiedColor c)) ∧
  (colors ≠ [] →
   ∃ pre c post,
     colors = pre ++ c :: post ∧
     Forall (λ c', (pixel_percent c' <=? pixel_percent c)%float = true) pre ∧
     Forall (λ c', (pixel_percent c' <? pixel_percent c)%float = true) post ∧
     get_dominant_color_name props = Ok (SimplifiedColor c)).
Proof.
  intros Hprops Hnum. split; [|intros Hne; by apply (dominant_color_last_max props)].
  intros pre c post -> Hpost. rewrite dominant_colors_get.
  rewrite (find_reverse_last _ pre post c); [done| |done].
  apply FloatOrder.eqb_refl.
  eapply Forall_forall in Hnum; [exact Hnum|]. apply elem_of_app. right. left.
Qed.

Lemma dominant_color_ties_to_last_witness :
  (∀ pre c post,
     tied_colors = pre ++ c :: post →
     Forall (λ c', (pixel_percent c' =? pixel_percent c)%float = false) post →
     float_dict_get (dominant_colors tied_colors) (pixel_percent c)
     = Some (SimplifiedColor c)) ∧
  (tied_colors ≠ [] →
   ∃ pre c post,
     tied_colors = pre ++ c :: post ∧
     Forall (λ c', (pixel_percent c' <=? pixel_percent c)%float = true) pre ∧
     Forall (λ c', (pixel_percent c' <? pixel_percent c)%float = true) post ∧
     get_dominant_color_name {| Quality := None; DominantColors := Some tied_colors |}
     = Ok (SimplifiedColor c)).
Proof.
  apply (dominant_color_ties_to_last
           {| Quality := None; DominantColors := Some tied_colors |} tied_colors).
  - reflexivity.
  - repeat constructor.
Defined.

Example tied_colors_result :
  get_dominant_color_name {| Quality := None; DominantColors := Some tied_colors |}
  = Ok (Some "B").
Proof. reflexivity. Qed.

(** ** The sharpness gate *)

Lemma avg_sharpness_of (props : image_properties) :
  avg_sharpness props = default 100%float (sharpness_of props).
Proof. unfold avg_sharpness, sharpness_of. by destruct (Quality props). Qed.

(** The gate compares the sharpness with the threshold: with a
    measurement [s] it is [s > threshold], false whenever [s <= threshold];
    without one, 100 is compared in its place. *)
Lemma is_sharp_compares (props : image_properties) (threshold : float) :
  (∀ s, sharpness_of props = Some s →
        is_sharp props threshold = (threshold <? s)%float ∧
        ((s <=? threshold)%float = true → is_sharp props threshold = false)) ∧
  (sharpness_of props = None →
     is_sharp props threshold = (threshold <? 100)%float ∧
     ((100 <=? threshold)%float = true → is_sharp props threshold = false)).
Proof.
  unfold is_sharp. rewrite avg_sharpness_of. split.
  - intros s ->. simpl. split; [done|]. intros Hle.
    destruct (threshold <? s)%float eqn:Hlt; [|done].
    apply FloatOrder.ltb_not_leb in Hlt. congruence.
  - intros ->. simpl. split; [done|]. intros Hle.
    destruct (threshold <? 100)%float eqn:Hlt; [|done].
    apply FloatOrder.ltb_not_leb in Hlt. congruence.
Qed.

(** C5.  The code does not keep every image that comes without a
    sharpness measurement, though the comment on its default says that it
    is there to keep such an image: the default is the constant 100,
    compared with [>] like a measured value.  At the threshold 100, which
    [--min_sharpness 100] gives, an image without [Quality], and one whose
    [Quality] has no [Sharpness], are rejected. *)
Theorem absent_sharpness_rejected :
  (sharpness_of {| Quality := None; DominantColors := None |} = None ∧
   is_sharp {| Quality := None; DominantColors := None |} 100 = false) ∧
  (sharpness_of {| Quality := Some {| Sharpness := None |}; DominantColors := None |}
   = None ∧
   is_sharp {| Quality := Some {| Sharpness := None |}; DominantColors := None |} 100
   = false).
Proof. done. Qed.

(** ** Strings *)

Lemma string_app_cons (c : ascii) (s t : string) :
  String c s +:+ t = String c (s +:+ t).
Proof. done. Qed.

Lemma string_app_assoc (s t u : string) : (s +:+ t) +:+ u = s +:+ t +:+ u.
Proof. induction s as [|c s IH]; [done|]. by rewrite !string_app_cons, IH. Qed.

Lemma string_app_nil_r (s : string) : s +:+ EmptyString = s.
Proof. induction s as [|c s IH]; [done|]. by rewrite string_app_cons, IH. Qed.

(** ** Paths *)

Lemma endswith_char_app (s t : string) (c : ascii) :
  t ≠ EmptyString → Py.endswith_char (s +:+ t) c = Py.endswith_char t c.
Proof.
  intros Ht. induction s as [|a s IH]; [done|].
  rewrite string_app_cons. simpl. rewrite IH.
  destruct (s +:+ t) eqn:E; [|done]. by destruct s, t.
Qed.

Lemma app_not_empty (s t : string) : t ≠ EmptyString → s +:+ t ≠ EmptyString.
Proof. by destruct s, t. Qed.

(** [os.path.join] of a directory and a relative component. *)
Lemma path_join1_relative (path b : string) :
  path ≠ EmptyString →
  Py.endswith_char path "/" = false →
  Py.startswith b "/" = false →
  Py.path_join1 path b = path +:+ "/" +:+ b.
Proof.
  intros Hne Hend Hb. unfold Py.path_join1. rewrite Hb, Hend.
  by rewrite bool_decide_eq_false_2.
Qed.

(** The directory of a label reads [<output>/labels/<category>/<name>]
    when the output directory has no trailing slash and the category and
    the name are relative path components. *)
Lemma labels_destination_text (OUTPUT_DIR category name : string) :
  OUTPUT_DIR ≠ EmptyString →
  Py.endswith_char OUTPUT_DIR "/" = false →
  category ≠ EmptyString →
  Py.startswith category "/" = false →
  Py.endswith_char category "/" = false →
  Py.startswith name "/" = false →
  Py.path_join (labels_dir OUTPUT_DIR) [category; name]
  = OUTPUT_DIR +:+ "/labels/" +:+ category +:+ "/" +:+ name.
Proof.
  intros Ho1 Ho2 Hc1 Hc2 Hc3 Hn. unfold labels_dir, Py.path_join. simpl.
  rewrite (path_join1_relative OUTPUT_DIR "labels") by done.
  rewrite (path_join1_relative _ category);
    [|by apply app_not_empty|by rewrite endswith_char_app|done].
  rewrite path_join1_relative;
    [|by apply app_not_empty, app_not_empty|
      by rewrite !endswith_char_app by (try apply app_not_empty; done)|done].
  by rewrite !string_app_assoc.
Qed.

Example labels_destination_sample :
  Py.path_join (labels_dir ".") ["Nature"; "Sky"] = "./labels/Nature/Sky".
Proof. done. Qed.

(** ** Sorting one image *)

Section ClassifyFacts.
Variables (OUTPUT_DIR mapping : string) (args_min_sharpness : float).
Variable image_path : string.

Abbreviation classify := (classify_image OUTPUT_DIR mapping args_min_sharpness image_path).
Abbreviation categorize := (categorize_label OUTPUT_DIR mapping image_path).

Lemma classify_blurry (response : response) (props : image_properties) :
  ImageProperties response = Some props →
  is_sharp props args_min_sharpness = false →
  classify response = ([Print (blurry_message image_path)], Ok Skipped).
Proof. intros Hp Hs. unfold classify_image. rewrite Hp. simpl. by rewrite Hs. Qed.

Lemma make_category_run (dir : string) :
  make_category image_path dir = (category_effects image_path dir, Ok tt).
Proof. done. Qed.

(** A label with instances is passed over. *)
Lemma categorize_instances (l : label) (i : instance) (rest : list instance) :
  Instances l = Some (i :: rest) → categorize l = ([], Ok tt).
Proof. intros H. unfold categorize_label. by rewrite H. Qed.

(** A label of the whole image whose category is found. *)
Lemma categorize_resolved (l : label) (category : string) :
  Py.truth (Instances l) = false →
  get_label_category mapping (Name l) = Ok (Some category) →
  categorize l =
    (category_effects image_path (Py.path_join (labels_dir OUTPUT_DIR) [category; Name l]), Ok tt).
Proof. intros Ht Hc. unfold categorize_label. rewrite Ht, Hc. done. Qed.

(** A label of the whole image whose category is not found. *)
Lemma categorize_unresolved (l : label) :
  Py.truth (Instances l) = false →
  get_label_category mapping (Name l) = Ok None →
  categorize l = ([], Raise TypeError).
Proof. intros Ht Hc. unfold categorize_label. rewrite Ht, Hc. done. Qed.

Lemma for_each_labels (category : label → string) (labels : list label) :
  (∀ l, l ∈ labels → Py.truth (Instances l) = false →
        get_label_category mapping (Name l) = Ok (Some (category l))) →
  ∃ t, for_each categorize labels = (t, Ok tt) ∧
       destinations t = label_destinations OUTPUT_DIR category labels.
Proof.
  induction labels as [|l labels IH]; intros Hcat; simpl.
  - by exists [].
  - destruct IH as (t & Ht & Hd).
    { intros l' Hl'. apply Hcat. by right. }
    rewrite Ht. destruct (Py.truth (Instances l)) eqn:Htruth.
    + destruct (Instances l) as [[|i rest]|] eqn:Hi; try done.
      rewrite (categorize_instances l i rest Hi). exists t. by rewrite Hd.
    + rewrite (categorize_resolved l (category l) Htruth) by (apply Hcat; [left|done]).
      eexists. split; [reflexivity|]. simpl. by rewrite Hd.
Qed.
End ClassifyFacts.

Lemma classify_images_cons
    (OUTPUT_DIR mapping : string) (args_min_sharpness : float)
    (image_path : string) (images : list (string * response)) (resp : response) :
  classify_images OUTPUT_DIR mapping args_min_sharpness ((image_path, resp) :: images)
  = ((classify_image OUTPUT_DIR mapping args_min_sharpness image_path resp;; mret tt);;
     classify_images OUTPUT_DIR mapping args_min_sharpness images).
Proof. done. Qed.

(** C9. When the sharpness gate rejects an image, the image is skipped:
    the only effect is the message printed, no directory is created and no
    file is copied for it, and the loop goes on with the next image. *)
Theorem blurry_image_skipped
    (OUTPUT_DIR mapping : string) (args_min_sharpness : float)
    (image_path : string) (response : response) (props : image_properties) :
  ImageProperties response = Some props →
  is_sharp props args_min_sharpness = false →
  let run := classify_image OUTPUT_DIR mapping args_min_sharpness image_path response in
  outcome run = Ok Skipped ∧
  trace run = [Print (blurry_message image_path)] ∧
  destinations (trace run) = [] ∧
  copies (trace run) = [] ∧
  ∀ images,
    let others := classify_images OUTPUT_DIR mapping args_min_sharpness images in
    classify_images OUTPUT_DIR mapping args_min_sharpness ((image_path, response) :: images)
    = (Print (blurry_message image_path) :: trace others, outcome others).
Proof.
  intros Hp Hs run. unfold run.
  rewrite (classify_blurry _ _ _ _ _ _ Hp Hs). do 4 (split; [done|]).
  intros images. cbv zeta. rewrite classify_images_cons.
  rewrite (classify_blurry _ _ _ _ _ _ Hp Hs). simpl.
  by destruct (classify_images _ _ _ images).
Qed.

Lemma blurry_image_skipped_witness :
  let run := classify_image "out" sample_mapping 60 "imgs/a.jpg"
               (sample_response (Some 50%float)) in
  outcome run = Ok Skipped ∧
  trace run = [Print (blurry_message "imgs/a.jpg")] ∧
  destinations (trace run) = [] ∧
  copies (trace run) = [] ∧
  ∀ images,
    let others := classify_images "out" sample_mapping 60 images in
    classify_images "out" sample_mapping 60
      (("imgs/a.jpg", sample_response (Some 50%float)) :: images)
    = (Print (blurry_message "imgs/a.jpg") :: trace others, outcome others).
Proof.
  apply (blurry_image_skipped "out" sample_mapping 60 "imgs/a.jpg"
           (sample_response (Some 50%float)) (sample_properties (Some 50%float))).
  - reflexivity.
  - reflexivity.
Defined.

(** C2, as the code has it.  A label with one or more instances adds no
    destination, whatever the detection result.  When the image passes the
    sharpness gate and has a dominant colour, it is sorted into the
    directory of its colour and then, label by label, into one directory
    [os.path.join(labels_dir, category, name)] for each label without
    instances, in the order of the labels, as far as these labels have a
    category in the mapping file: up to the first label without instances
    that has none.  When all of them have one, these are all the
    directories, and the image is sorted. *)
Theorem whole_image_labels_fan_out
    (OUTPUT_DIR mapping : string) (args_min_sharpness : float) (image_path : string) :
  (∀ l i rest,
     Instances l = Some (i :: rest) →
     categorize_label OUTPUT_DIR mapping image_path l = ([], Ok tt)) ∧
  (∀ response props color labels category,
     ImageProperties response = Some props →
     is_sharp props args_min_sharpness = true →
     get_dominant_color_name props = Ok (Some color) →
     Labels response = Some labels →
     (∀ l, l ∈ labels → Py.truth (Instances l) = false →
           get_label_category mapping (Name l) = Ok (Some (category l))) →
     ∃ t,
       classify_image OUTPUT_DIR mapping args_min_sharpness image_path response
       = (t, Ok Sorted) ∧
       destinations t =
         Py.path_join (colors_dir OUTPUT_DIR) [color]
         :: label_destinations OUTPUT_DIR category labels) ∧
  (∀ response props color before after category,
     ImageProperties response = Some props →
     is_sharp props args_min_sharpness = true →
     get_dominant_color_name props = Ok (Some color) →
     Labels response = Some (before ++ after) →
     (∀ l, l ∈ before → Py.truth (Instances l) = false →
           get_label_category mapping (Name l) = Ok (Some (category l))) →
     ∃ ds,
       destinations
         (trace (classify_image OUTPUT_DIR mapping args_min_sharpness image_path response))
       = (Py.path_join (colors_dir OUTPUT_DIR) [color]
          :: label_destinations OUTPUT_DIR category before) ++ ds).
Proof.
  split; [apply categorize_instances|]. split.
  - intros response props color labels category Hp Hs Hc Hl Hcat.
    destruct (for_each_labels OUTPUT_DIR mapping image_path category labels Hcat)
      as (t & Ht & Hd).
    unfold classify_image. rewrite Hp. simpl. rewrite Hs, Hc, Hl. simpl.
    rewrite Ht. simpl. eexists. split; [reflexivity|].
    by rewrite app_nil_r, !destinations_cons, Hd.
  - intros response props color before after category Hp Hs Hc Hl Hcat.
    destruct (for_each_labels OUTPUT_DIR mapping image_path category before Hcat)
      as (t & Ht & Hd).
    unfold classify_image. rewrite Hp. simpl. rewrite Hs, Hc, Hl. simpl.
    rewrite (for_each_app_ok _ _ after _ Ht).
    destruct (for_each _ after) as [t' [[]|e]]; simpl;
      exists (destinations t');
      by rewrite ?app_nil_r, destinations_app, Hd.
Qed.

Lemma whole_image_labels_fan_out_witness :
  (categorize_label "out" sample_mapping "imgs/a.jpg" car = ([], Ok tt)) ∧
  (∃ t,
     classify_image "out" sample_mapping 60 "imgs/a.jpg" (sample_response (Some 80%float))
     = (t, Ok Sorted) ∧
     destinations t =
       Py.path_join (colors_dir "out") ["Blue"]
       :: label_destinations "out" sample_category [sky; car]) ∧
  (∃ ds,
     destinations
       (trace (classify_image "out" sample_mapping 60 "imgs/a.jpg"
                 {| ImageProperties := Some (sample_properties (Some 80%float));
                    Labels := Some ([car; sky] ++ [tree; sky]) |}))
     = (Py.path_join (colors_dir "out") ["Blue"]
        :: label_destinations "out" sample_category [car; sky]) ++ ds).
Proof.
  pose proof (whole_image_labels_fan_out "out" sample_mapping 60 "imgs/a.jpg")
    as (H1 & H2 & H3).
  split; [|split].
  - eapply H1. reflexivity.
  - apply (H2 (sample_response (Some 80%float)) (sample_properties (Some 80%float))).
    + reflexivity.
    + reflexivity.
    + reflexivity.
    + reflexivity.
    + intros l Hl Ht.
      apply elem_of_cons in Hl as [->|Hl]; [reflexivity|].
      apply list_elem_of_singleton in Hl as ->. discriminate Ht.
  - apply (H3 {| ImageProperties := Some (sample_properties (Some 80%float));
                 Labels := Some ([car; sky] ++ [tree; sky]) |}
              (sample_properties (Some 80%float)) "Blue" [car; sky] [tree; sky]).
    + reflexivity.
    + reflexivity.
    + reflexivity.
    + reflexivity.
    + intros l Hl Ht.
      apply elem_of_cons in Hl as [->|Hl]; [discriminate Ht|].
      apply list_elem_of_singleton in Hl as ->. reflexivity.
Defined.

(** The labels after a label without category are not reached: of a
    second label "Sky" that follows "Tree", which the mapping does not
    list, no directory is made. *)
Example labels_after_unresolved :
  classify_image "out" sample_mapping 60 "imgs/a.jpg"
    {| ImageProperties := Some (sample_properties (Some 80%float));
       Labels := Some [sky; tree; sky] |}
  = (category_effects "imgs/a.jpg" "out/colors/Blue"
     ++ category_effects "imgs/a.jpg" ("out/labels/Nature" +:+ String "010" "/Sky"),
     Raise TypeError).
Proof. reflexivity. Qed.

(** C2, as the specification has it, fails: the label without instances of
    an image that the sharpness gate rejects adds no destination. *)
Lemma whole_image_label_of_blurry_image :
  Labels (sample_response (Some 50%float)) = Some [sky; car] ∧
  Instances sky = Some [] ∧
  destinations
    (trace (classify_image "out" sample_mapping 60 "imgs/a.jpg"
              (sample_response (Some 50%float)))) = [].
Proof. done. Qed.

(** The sample image, sorted: the category of a label is the text after
    the comma of its line, with the newline that ends the line. *)
Example sample_image_sorted :
  destinations
    (trace (classify_image "out" sample_mapping 60 "imgs/a.jpg"
              (sample_response (Some 80%float))))
  = ["out/colors/Blue"; "out/labels/Nature" +:+ String "010" "/Sky"].
Proof. done. Qed.

(** C6, as the code has it.  A label without instances whose name starts no
    line of the mapping file has no category, and [os.path.join] raises
    [TypeError] on the missing category: the image is copied into the
    directory of its colour, and into no directory of labels. *)
Theorem unresolved_category_raises :
  get_label_category (Spec.mapping_file [("Car", "Vehicles")]) "Sky" = Ok None ∧
  classify_image "out" (Spec.mapping_file [("Car", "Vehicles")]) 60 "imgs/a.jpg"
    (sample_response (Some 80%float))
  = ([Makedirs "out/colors/Blue"; Copy "imgs/a.jpg" "out/colors/Blue/a.jpg"],
     Raise TypeError).
Proof. done. Qed.

(** ** The pixel rectangle *)

(** The quotients of [int] and [math.floor]: the first rounds toward zero,
    the second toward minus infinity. *)
Lemma scaled_floor_spec (s : bool) (m : positive) (e : Z) :
  let z := cond_Zopp s (Z.pos m) in
  let q := Py.scaled Z.div s m e in
  (0 <= e → q = z * 2 ^ e) ∧
  (e < 0 → q * 2 ^ (- e) <= z < (q + 1) * 2 ^ (- e)).
Proof.
  intros z q. unfold q, Py.scaled. fold z. split; intros He.
  - by rewrite (proj2 (Z.leb_le 0 e)) by lia.
  - rewrite (proj2 (Z.leb_gt 0 e)) by lia.
    assert (0 < 2 ^ (- e)) by (apply Z.pow_pos_nonneg; lia).
    pose proof (Z.div_mod z (2 ^ (- e))). pose proof (Z.mod_pos_bound z (2 ^ (- e))).
    nia.
Qed.

Lemma scaled_int_spec (s : bool) (m : positive) (e : Z) :
  let q := Py.scaled Z.quot s m e in
  (0 <= e → q = cond_Zopp s (Z.pos m * 2 ^ e)) ∧
  (e < 0 → ∃ a, q = cond_Zopp s a ∧
                a * 2 ^ (- e) <= Z.pos m < (a + 1) * 2 ^ (- e)).
Proof.
  intros q. unfold q, Py.scaled. split; intros He.
  - rewrite (proj2 (Z.leb_le 0 e)) by lia. destruct s; simpl; lia.
  - rewrite (proj2 (Z.leb_gt 0 e)) by lia.
    assert (0 < 2 ^ (- e)) by (apply Z.pow_pos_nonneg; lia).
    exists (Z.pos m / 2 ^ (- e)). split.
    + destruct s; simpl.
      * try rewrite <-Pos2Z.opp_pos. rewrite Z.quot_opp_l by lia.
        by rewrite Z.quot_div_nonneg by lia.
      * by rewrite Z.quot_div_nonneg by lia.
    + pose proof (Z.div_mod (Z.pos m) (2 ^ (- e))).
      pose proof (Z.mod_pos_bound (Z.pos m) (2 ^ (- e))). nia.
Qed.

Lemma binary_round_aux_sign (s : bool) (m e : Z) (l : location) :
  match binary_round_aux prec emax s m e l with
  | S754_finite s' _ _ | S754_infinity s' | S754_zero s' => s' = s
  | S754_nan => True
  end.
Proof.
  unfold binary_round_aux.
  destruct (shr_fexp prec emax m e l) as [mrs' e'].
  destruct (shr_fexp prec emax _ e' loc_Exact) as [mrs'' e''].
  destruct (shr_m mrs''); [done| |done]. by destruct (_ <=? _).
Qed.

Lemma SFmul_not_negative (x y : spec_float) :
  SFnot_negative x → SFnot_negative y → SFnot_negative (SF64mul x y).
Proof.
  destruct x as [[]|[]| |[] mx ex], y as [[]|[]| |[] my ey]; simpl; try done.
  intros _ _.
  pose proof (binary_round_aux_sign false (Z.pos (mx * my)) (ex + ey) loc_Exact) as H.
  simpl in H. by destruct (binary_round_aux _ _ _ _ _ _) as [[]|[]| |[] ? ?].
Qed.

Lemma float_of_int_not_negative (n : Z) :
  SFnot_negative (Prim2SF (Py.float_of_int n)).
Proof.
  unfold Py.float_of_int. rewrite of_uint63_spec.
  pose proof (Uint63.to_Z_bounded (Uint63.of_Z n)) as [Hn _].
  destruct (Uint63.to_Z _) as [|p|p]; [done| |lia].
  simpl. unfold binary_round.
  destruct (shl_align _ _ _) as [mz ez].
  pose proof (binary_round_aux_sign false (Z.pos mz) ez loc_Exact) as H.
  by destruct (binary_round_aux _ _ _ _ _ _) as [[]|[]| |[] ? ?].
Qed.

Lemma leb_zero_not_negative (x : float) :
  (0 <=? x)%float = true → SFnot_negative (Prim2SF x).
Proof.
  rewrite FloatAxioms.leb_spec. change (Prim2SF 0) with (S754_zero false).
  intros [[s ->]|[(m & e & ->)| ->]]%SFOrder.sf_leb_zero; done.
Qed.

(** On a float that is not negative, [int] and [math.floor] agree: in the
    value, and in the exception on an infinity or a NaN. *)
Lemma int_floor_not_negative (x : float) :
  SFnot_negative (Prim2SF x) → Py.int x = Py.floor x.
Proof.
  unfold Py.int, Py.floor, Py.to_integer.
  destruct (Prim2SF x) as [[]|[]| |[] m e]; try done.
  intros _. unfold Py.scaled. simpl. destruct (0 <=? e) eqn:He; [done|].
  f_equal. apply Z.quot_div_nonneg; [done|].
  apply Z.pow_pos_nonneg; [done|]. apply Z.leb_gt in He. lia.
Qed.

Lemma int_floor_product (x : float) (n : Z) :
  (0 <=? x)%float = true →
  Py.int (x * Py.float_of_int n) = Py.floor (x * Py.float_of_int n).
Proof.
  intros Hx. apply int_floor_not_negative. rewrite FloatAxioms.mul_spec.
  apply SFmul_not_negative;
    [by apply leb_zero_not_negative|apply float_of_int_not_negative].
Qed.

(** *** The products are finite

    The product of a fraction and an image dimension does not overflow:
    the rounding of [SpecFloat] is followed through its two shifts. *)

Lemma digits2_pos_bounds (p : positive) :
  2 ^ (Z.pos (digits2_pos p) - 1) <= Z.pos p < 2 ^ Z.pos (digits2_pos p).
Proof.
  induction p as [p IH|p IH|]; simpl digits2_pos; [| |done].
  - rewrite Pos2Z.inj_succ, (Pos2Z.inj_xI p).
    replace (Z.succ (Z.pos (digits2_pos p)) - 1) with (Z.succ (Z.pos (digits2_pos p) - 1)) by lia.
    rewrite !Z.pow_succ_r by lia.
    revert IH. generalize (2 ^ (Z.pos (digits2_pos p) - 1)) (2 ^ Z.pos (digits2_pos p)). lia.
  - rewrite Pos2Z.inj_succ, (Pos2Z.inj_xO p).
    replace (Z.succ (Z.pos (digits2_pos p)) - 1) with (Z.succ (Z.pos (digits2_pos p) - 1)) by lia.
    rewrite !Z.pow_succ_r by lia.
    revert IH. generalize (2 ^ (Z.pos (digits2_pos p) - 1)) (2 ^ Z.pos (digits2_pos p)). lia.
Qed.

(** A positive number below [2^j] has at most [j] digits. *)
Lemma digits2_pos_le (p : positive) (j : Z) :
  Z.pos p < 2 ^ j → Z.pos (digits2_pos p) <= j.
Proof.
  intros Hp. pose proof (digits2_pos_bounds p) as [Hlo _].
  destruct (Z_le_gt_dec (Z.pos (digits2_pos p)) j) as [|Hgt]; [done|].
  assert (2 ^ j <= 2 ^ (Z.pos (digits2_pos p) - 1)) by (apply Z.pow_le_mono_r; lia).
  lia.
Qed.

Lemma shr_1_m (mrs : shr_record) :
  0 <= shr_m mrs → shr_m (shr_1 mrs) = shr_m mrs / 2.
Proof.
  destruct mrs as [m r s]. simpl. intros Hm. rewrite <-Z.div2_div.
  by destruct m as [|[p|p|]|p].
Qed.

Lemma iter_shr_1_m (p : positive) (mrs : shr_record) :
  0 <= shr_m mrs →
  shr_m (SpecFloat.iter_pos shr_1 p mrs) = shr_m mrs / 2 ^ Z.pos p.
Proof.
  revert mrs. induction p as [p IH|p IH|]; intros mrs Hm; simpl SpecFloat.iter_pos.
  - assert (0 <= shr_m (shr_1 mrs)) as H1.
    { rewrite shr_1_m by done. by apply Z.div_pos. }
    assert (0 < 2 ^ Z.pos p) as Hp by (apply Z.pow_pos_nonneg; lia).
    rewrite IH.
    + rewrite IH, shr_1_m by done. rewrite !Z.div_div by lia.
      f_equal. rewrite (Pos2Z.inj_xI p).
      replace (2 * Z.pos p + 1) with (1 + Z.pos p + Z.pos p) by lia.
      rewrite !Z.pow_add_r by lia. lia.
    + rewrite IH by done. by apply Z.div_pos.
  - assert (0 < 2 ^ Z.pos p) as Hp by (apply Z.pow_pos_nonneg; lia).
    rewrite IH.
    + rewrite IH by done. rewrite Z.div_div by lia. f_equal.
      rewrite (Pos2Z.inj_xO p). replace (2 * Z.pos p) with (Z.pos p + Z.pos p) by lia.
      by rewrite Z.pow_add_r by lia.
    + rewrite IH by done. by apply Z.div_pos.
  - by rewrite shr_1_m.
Qed.

(** The shift of [shr_fexp] on an exact, non-negative mantissa. *)
Lemma shr_fexp_exact (m e : Z) (l : location) :
  0 <= m →
  let n := Z.max (fexp prec emax (Zdigits2 m + e) - e) 0 in
  let '(mrs, e') := shr_fexp prec emax m e l in
  shr_m mrs = m / 2 ^ n ∧ e' = e + n.
Proof.
  intros Hm n. unfold shr_fexp, shr. subst n.
  assert (shr_m (shr_record_of_loc m l) = m) as Hrec
    by by destruct l as [|[]].
  destruct (fexp prec emax (Zdigits2 m + e) - e) as [|p|p] eqn:E.
  - simpl. rewrite Hrec, Z.div_1_r. split; [done|lia].
  - rewrite iter_shr_1_m by (by rewrite Hrec). rewrite Hrec.
    by rewrite Z.max_l by lia.
  - rewrite Z.max_r by lia. simpl. rewrite Hrec, Z.div_1_r. split; [done|lia].
Qed.

Lemma round_nearest_even_bounds (m : Z) (l : location) :
  m <= round_nearest_even m l <= m + 1.
Proof.
  unfold round_nearest_even. destruct l as [|[]]; try lia.
  destruct (IntDef.Z.even m); lia.
Qed.

Lemma div_pow_lt (m D a : Z) :
  0 <= m < 2 ^ D → 0 <= a → 0 <= D → m / 2 ^ a < 2 ^ Z.max (D - a) 0.
Proof.
  intros [Hm0 Hm] Ha HD.
  assert (0 < 2 ^ a) by (apply Z.pow_pos_nonneg; lia).
  destruct (Z_le_gt_dec a D).
  - rewrite Z.max_l by lia. apply Z.div_lt_upper_bound; [done|].
    rewrite <-Z.pow_add_r by lia. by replace (a + (D - a)) with D by lia.
  - rewrite Z.max_r by lia. rewrite Z.div_small; [done|].
    split; [done|]. assert (2 ^ D <= 2 ^ a) by (apply Z.pow_le_mono_r; lia). lia.
Qed.

Lemma fexp_binary64 (x : Z) : fexp prec emax x = Z.max (x - 53) (-1074).
Proof. done. Qed.

(** Rounding a positive number of moderate size gives a zero or a finite
    float, of about the same size. *)
Lemma binary_round_aux_finite (s : bool) (m : positive) (e : Z) :
  Z.pos (digits2_pos m) + e <= 1023 →
  e <= 971 →
  match binary_round_aux prec emax s (Z.pos m) e loc_Exact with
  | S754_zero _ => True
  | S754_finite _ m' e' =>
      Z.pos (digits2_pos m') + e' <= Z.max (Z.pos (digits2_pos m) + e) (-1074) + 1
  | _ => False
  end.
Proof.
  intros Hk He. unfold binary_round_aux.
  pose proof (digits2_pos_bounds m) as Hm.
  set (D := Z.pos (digits2_pos m)) in *.
  pose proof (shr_fexp_exact (Z.pos m) e loc_Exact ltac:(lia)) as H1.
  destruct (shr_fexp prec emax (Z.pos m) e loc_Exact) as [mrs' e'].
  rewrite fexp_binary64 in H1. simpl Zdigits2 in H1. fold D in H1.
  set (n1 := Z.max (Z.max (D + e - 53) (-1074) - e) 0) in *.
  destruct H1 as [Hm1 ->].
  assert (0 <= shr_m mrs' < 2 ^ Z.max (D - n1) 0) as Hm1b.
  { rewrite Hm1. split.
    - apply Z.div_pos; [lia|]. apply Z.pow_pos_nonneg; lia.
    - apply div_pow_lt; lia. }
  pose proof (round_nearest_even_bounds (shr_m mrs') (loc_of_shr_record mrs')) as Hm2.
  set (m2 := round_nearest_even (shr_m mrs') (loc_of_shr_record mrs')) in *.
  pose proof (shr_fexp_exact m2 (e + n1) loc_Exact ltac:(lia)) as H2.
  destruct (shr_fexp prec emax m2 (e + n1) loc_Exact) as [mrs'' e''].
  rewrite fexp_binary64 in H2. destruct H2 as [Hm3 ->].
  destruct m2 as [|q|q] eqn:Eq; [| |lia].
  - (* the rounded mantissa is zero *)
    simpl Zdigits2 in Hm3. rewrite Z.div_0_l in Hm3 by (apply Z.pow_nonzero; lia).
    by rewrite Hm3.
  - (* a positive mantissa [q] *)
    simpl Zdigits2 in *.
    assert (Z.pos (digits2_pos q) <= Z.max (D - n1) 0 + 1) as HD2.
    { apply digits2_pos_le. rewrite Z.pow_add_r, Z.pow_1_r by lia.
      assert (0 < 2 ^ Z.max (D - n1) 0) by (apply Z.pow_pos_nonneg; lia). lia. }
    set (D2 := Z.pos (digits2_pos q)) in *.
    set (n2 := Z.max (Z.max (D2 + (e + n1) - 53) (-1074) - (e + n1)) 0) in *.
    assert (0 <= shr_m mrs'' < 2 ^ Z.max (D2 - n2) 0) as Hm3b.
    { rewrite Hm3. split.
      - apply Z.div_pos; [lia|]. apply Z.pow_pos_nonneg; lia.
      - apply div_pow_lt; [|lia..]. pose proof (digits2_pos_bounds q) as Hq.
        fold D2 in Hq. lia. }
    destruct (shr_m mrs'') as [|r|r]; [done| |lia].
    rewrite (proj2 (Z.leb_le _ _)) by (unfold emax, prec; lia).
    destruct (Z_le_gt_dec (D2 - n2) 0) as [Hle|Hgt].
    + rewrite Z.max_r in Hm3b by lia. simpl in Hm3b. lia.
    + rewrite Z.max_l in Hm3b by lia.
      assert (Z.pos (digits2_pos r) <= D2 - n2) by (apply digits2_pos_le; lia).
      lia.
Qed.

Lemma digits2_pos_shift (p d : positive) :
  digits2_pos (PosDef.Pos.iter xO p d) = (digits2_pos p + d)%positive.
Proof.
  change (PosDef.Pos.iter xO p d) with (Pos.iter xO p d).
  induction d as [|d IH] using Pos.peano_ind.
  - simpl. lia.
  - rewrite Pos.iter_succ. simpl. rewrite IH. lia.
Qed.

Lemma digits2_pos_mul (p q : positive) :
  Z.pos (digits2_pos (p * q)) <= Z.pos (digits2_pos p) + Z.pos (digits2_pos q).
Proof.
  apply digits2_pos_le. rewrite Pos2Z.inj_mul, Z.pow_add_r by lia.
  pose proof (digits2_pos_bounds p). pose proof (digits2_pos_bounds q).
  nia.
Qed.

(** The float of an integer below [2^63] is finite and below [2^64]. *)
Lemma of_uint63_finite (i : int) :
  match Prim2SF (of_uint63 i) with
  | S754_zero _ => True
  | S754_finite _ m e => Z.pos (digits2_pos m) + e <= 64
  | _ => False
  end.
Proof.
  rewrite of_uint63_spec.
  pose proof (Uint63.to_Z_bounded i) as [Hlo Hhi].
  destruct (Uint63.to_Z i) as [|p|p] eqn:E; [done| |lia].
  assert (Z.pos (digits2_pos p) <= 63) as Hd.
  { apply digits2_pos_le. exact Hhi. }
  simpl. unfold binary_round. rewrite fexp_binary64.
  unfold shl_align.
  destruct (Z.max (Z.pos (digits2_pos p) + 0 - 53) (-1074) - 0) as [|d|d] eqn:Ed.
  - pose proof (binary_round_aux_finite false p 0 ltac:(lia) ltac:(lia)) as H.
    destruct (binary_round_aux _ _ _ _ _ _); try done. lia.
  - pose proof (binary_round_aux_finite false p 0 ltac:(lia) ltac:(lia)) as H.
    destruct (binary_round_aux _ _ _ _ _ _); try done. lia.
  - rewrite Z.sub_0_r in Ed. rewrite Ed.
    assert (Z.pos (digits2_pos (PosDef.Pos.iter xO p d)) + Z.neg d
            = Z.pos (digits2_pos p)) as Hk.
    { rewrite digits2_pos_shift. lia. }
    pose proof (binary_round_aux_finite false (PosDef.Pos.iter xO p d) (Z.neg d)
                  ltac:(lia) ltac:(lia)) as H.
    destruct (binary_round_aux _ _ _ _ _ _); try done. lia.
Qed.

(** A valid finite float: its mantissa has at most 53 digits and its
    exponent is at most 971. *)
Lemma valid_finite (s : bool) (m : positive) (e : Z) :
  valid_binary (S754_finite s m e) = true →
  Z.pos (digits2_pos m) <= 53 ∧ e <= 971.
Proof.
  simpl. unfold bounded, canonical_mantissa. rewrite fexp_binary64.
  intros [Hc He]%andb_true_iff. apply Z.eqb_eq in Hc. apply Z.leb_le in He.
  unfold emax, prec in He. lia.
Qed.

(** A float between zero and one: a zero, or a finite number with an
    exponent of at most [-52]. *)
Lemma unit_interval (x : float) :
  (0 <=? x)%float = true → (x <=? 1)%float = true →
  (∃ s, Prim2SF x = S754_zero s) ∨
  (∃ m e, Prim2SF x = S754_finite false m e ∧ Z.pos (digits2_pos m) <= 53 ∧ e <= -52).
Proof.
  rewrite !FloatAxioms.leb_spec. pose proof (Prim2SF_valid x) as Hv.
  change (Prim2SF 0) with (S754_zero false).
  change (Prim2SF 1) with (S754_finite false 4503599627370496 (-52)).
  destruct (Prim2SF x) as [s|[]| |[] m e];
    cbv beta iota delta [SFleb SFcompare]; try discriminate.
  - intros _ _. left. by exists s.
  - intros _ H. right. exists m, e. split; [reflexivity|].
    apply valid_finite in Hv as [Hd _]. split; [exact Hd|].
    destruct (Z.compare_spec e (-52)); [lia|lia|discriminate].
Qed.

(** The product of a float between zero and one and the float of an image
    dimension is a zero or a finite number. *)
Lemma product_finite (x : float) (i : int) :
  (0 <=? x)%float = true → (x <=? 1)%float = true →
  SFfinite (Prim2SF (x * of_uint63 i)).
Proof.
  intros H0 H1. rewrite FloatAxioms.mul_spec.
  pose proof (of_uint63_finite i) as Hy.
  pose proof (Prim2SF_valid (of_uint63 i)) as Hvy.
  destruct (unit_interval x H0 H1) as [[s ->]|(mx & ex & -> & Hdx & Hex)];
    destruct (Prim2SF (of_uint63 i)) as [sy|sy| |sy my ey]; try done.
  apply valid_finite in Hvy as [_ Hey]. unfold SF64mul, SFmul.
  pose proof (digits2_pos_mul mx my) as Hd.
  pose proof (binary_round_aux_finite (xorb false sy) (mx * my) (ex + ey)
                ltac:(lia) ltac:(lia)) as H.
  by destruct (binary_round_aux _ _ _ _ _ _).
Qed.

(** A float that is finite has a floor. *)
Lemma floor_finite (x : float) : SFfinite (Prim2SF x) → ∃ z, Py.floor x = Ok z.
Proof.
  unfold Py.floor, Py.to_integer. destruct (Prim2SF x); try done; eauto.
Qed.

Lemma floor_product (x : float) (n : Z) :
  fraction x → ∃ z, Py.floor (x * Py.float_of_int n) = Ok z.
Proof. intros [H0 H1]. by apply floor_finite, product_finite. Qed.

(** C3. For a bounding box whose fields are not negative and an image of
    [width] by [height] pixels, the rectangle computed is left =
    floor(Left * width), top = floor(Top * height), right = left +
    floor(Width * width), bottom = top + floor(Height * height), the
    products being those of the floats; when the fields are fractions of
    the image size, between zero and one, the four floors exist and the
    rectangle is returned.  On a 1000 by 500 image the box (0.1, 0.2, 0.5,
    0.5) yields (100, 100)-(600, 350). *)
Theorem pixel_rectangle_floor :
  (∀ (bbox : bounding_box) (width height : Z),
     (0 <=? Left bbox)%float = true →
     (0 <=? Top bbox)%float = true →
     (0 <=? Width bbox)%float = true →
     (0 <=? Height bbox)%float = true →
     0 <= width < 2 ^ 63 →
     0 <= height < 2 ^ 63 →
     pixel_rectangle bbox width height =
       (left ← Py.floor (Left bbox * Py.float_of_int width);
        top ← Py.floor (Top bbox * Py.float_of_int height);
        w ← Py.floor (Width bbox * Py.float_of_int width);
        h ← Py.floor (Height bbox * Py.float_of_int height);
        Ok (Rectangle left top (left + w) (top + h)))) ∧
  (∀ (bbox : bounding_box) (width height : Z),
     fraction (Left bbox) → fraction (Top bbox) →
     fraction (Width bbox) → fraction (Height bbox) →
     0 <= width < 2 ^ 63 →
     0 <= height < 2 ^ 63 →
     ∃ left top w h,
       Py.floor (Left bbox * Py.float_of_int width) = Ok left ∧
       Py.floor (Top bbox * Py.float_of_int height) = Ok top ∧
       Py.floor (Width bbox * Py.float_of_int width) = Ok w ∧
       Py.floor (Height bbox * Py.float_of_int height) = Ok h ∧
       pixel_rectangle bbox width height
       = Ok (Rectangle left top (left + w) (top + h))) ∧
  pixel_rectangle sample_box 1000 500 = Ok (Rectangle 100 100 600 350).
Proof.
  split; [|split; [|by vm_compute]].
  - intros bbox width height Hl Ht Hw Hh _ _. unfold pixel_rectangle.
    rewrite !int_floor_product by done.
    destruct (Py.floor (Left bbox * _)); [|done]. simpl.
    destruct (Py.floor (Top bbox * _)); [|done]. simpl.
    destruct (Py.floor (Width bbox * _)); [|done]. simpl.
    by destruct (Py.floor (Height bbox * _)).
  - intros bbox width height Hl Ht Hw Hh _ _. unfold pixel_rectangle.
    rewrite (int_floor_product _ _ (proj1 Hl)), (int_floor_product _ _ (proj1 Ht)),
      (int_floor_product _ _ (proj1 Hw)), (int_floor_product _ _ (proj1 Hh)).
    destruct (floor_product (Left bbox) width Hl) as [left Hleft].
    destruct (floor_product (Top bbox) height Ht) as [top Htop].
    destruct (floor_product (Width bbox) width Hw) as [w Hwidth].
    destruct (floor_product (Height bbox) height Hh) as [h Hheight].
    exists left, top, w, h. by rewrite Hleft, Htop, Hwidth, Hheight.
Qed.

Lemma pixel_rectangle_floor_witness :
  ∃ left top w h,
    Py.floor (Left sample_box * Py.float_of_int 1000) = Ok left ∧
    Py.floor (Top sample_box * Py.float_of_int 500) = Ok top ∧
    Py.floor (Width sample_box * Py.float_of_int 1000) = Ok w ∧
    Py.floor (Height sample_box * Py.float_of_int 500) = Ok h ∧
    pixel_rectangle sample_box 1000 500
    = Ok (Rectangle left top (left + w) (top + h)).
Proof.
  apply (proj1 (proj2 pixel_rectangle_floor) sample_box 1000 500);
    first [by split | lia].
Defined.

(** The rectangle is the argument of the crop: one image is saved for each
    bounding box, in the order of the dictionary, until a rectangle cannot
    be computed or a crop cannot be saved. *)
Lemma make_cropped_images_cons (save : rectangle → string → result unit)
    (image_extension : string) (img : image)
    (name : string) (bbox : bounding_box) (boxes : list (string * bounding_box))
    (output_dir : string) (box : rectangle) :
  pixel_rectangle bbox (width img) (height img) = Ok box →
  save box (Py.path_join output_dir [name +:+ image_extension]) = Ok tt →
  make_cropped_images save image_extension img ((name, bbox) :: boxes) output_dir
  = (CropSave box (Py.path_join output_dir [name +:+ image_extension])
       :: trace (make_cropped_images save image_extension img boxes output_dir),
     outcome (make_cropped_images save image_extension img boxes output_dir)).
Proof.
  intros Hbox Hsave. unfold make_cropped_images. cbn [for_each].
  rewrite Hbox, lift_bind_ok. cbv zeta. rewrite Hsave, lift_bind_ok, perform_bind.
  by destruct (for_each _ boxes).
Qed.

Lemma make_cropped_images_cons_raise (save : rectangle → string → result unit)
    (image_extension : string) (img : image)
    (name : string) (bbox : bounding_box) (boxes : list (string * bounding_box))
    (output_dir : string) (box : rectangle) (e : exn) :
  pixel_rectangle bbox (width img) (height img) = Ok box →
  save box (Py.path_join output_dir [name +:+ image_extension]) = Raise e →
  make_cropped_images save image_extension img ((name, bbox) :: boxes) output_dir
  = ([], Raise e).
Proof.
  intros Hbox Hsave. unfold make_cropped_images. cbn [for_each].
  rewrite Hbox, lift_bind_ok. cbv zeta. by rewrite Hsave.
Qed.

Example crop_sample :
  crop_main sample_save ".jpg" {| width := 1000; height := 500 |}
    (sample_response None) "crops"
  = ([Makedirs "crops";
      CropSave (Rectangle 100 100 600 350) "crops/Car-0.jpg";
      CropSave (Rectangle 100 100 600 350) "crops/Car-2.jpg"],
     Ok tt).
Proof. by vm_compute. Qed.

(** A box too narrow for a pixel is inside the image, and its crop is not
    saved: the run ends there. *)
Example thin_box_not_saved :
  fraction_box thin_box ∧
  pixel_rectangle thin_box 1000 500 = Ok (Rectangle 100 100 100 350) ∧
  make_cropped_images sample_save ".jpg" {| width := 1000; height := 500 |}
    [("Car-0", thin_box); ("Car-1", sample_box)] "crops"
  = ([], Raise ValueError).
Proof. repeat split; by vm_compute. Qed.

(** [int] rounds toward zero: below zero it is not the floor. *)
Example int_of_negative :
  Py.int (-0.05 * Py.float_of_int 10) = Ok 0 ∧
  Py.floor (-0.05 * Py.float_of_int 10) = Ok (-1).
Proof. by vm_compute. Qed.

(** The product is that of the floats, rounded: [0.7 * 10] is the float
    [7.0], though the number that the float [0.7] stands for is below
    seven tenths. *)
Example rounded_product :
  Py.int (0.7 * Py.float_of_int 10) = Ok 7 ∧
  Py.int (0.29 * Py.float_of_int 100) = Ok 28.
Proof. by vm_compute. Qed.

(** ** The keys of the bounding boxes *)

Lemma no_dash_app (s t : string) : no_dash s → no_dash t → no_dash (s +:+ t).
Proof. induction s; simpl; [done|]. intros [] ?. auto. Qed.

Lemma dash_app (s t : string) : ¬ no_dash (s +:+ String "-" t).
Proof. induction s; simpl; [by intros []|]. intros []. auto. Qed.

Lemma pretty_N_go_no_dash (x : N) (s : string) :
  ∃ t, pretty_N_go x s = t +:+ s ∧ no_dash t.
Proof.
  revert s. induction (N.lt_wf_0 x) as [x _ IH]; intros s.
  destruct (decide (x = 0)%N) as [->|Hx].
  - exists EmptyString. by rewrite pretty_N_go_0.
  - rewrite pretty_N_go_step by lia.
    destruct (IH (x `div` 10)%N) with (s := String (pretty_N_char (x `mod` 10)) s)
      as (t & -> & Ht); [apply N.div_lt; lia|].
    exists (t +:+ String (pretty_N_char (x `mod` 10)) EmptyString). split.
    + by rewrite string_app_assoc.
    + apply no_dash_app; [done|]. simpl. split; [|done].
      unfold pretty_N_char. by repeat case_match.
Qed.

Lemma str_of_nat_no_dash (i : nat) : no_dash (Py.str_of_nat i).
Proof.
  unfold Py.str_of_nat, pretty, pretty_nat, pretty, pretty_N.
  case_decide; [done|].
  destruct (pretty_N_go_no_dash (N.of_nat i) EmptyString) as (t & -> & Ht).
  by apply no_dash_app.
Qed.

(** A name, a dash and digits: the last dash tells the name from the
    digits. *)
Lemma app_dash_inj (s1 s2 d1 d2 : string) :
  no_dash d1 → no_dash d2 →
  s1 +:+ String "-" d1 = s2 +:+ String "-" d2 → s1 = s2 ∧ d1 = d2.
Proof.
  intros Hd1 Hd2. revert s2. induction s1 as [|c s1 IH]; intros [|c' s2] H.
  - change (String "-" d1 = String "-" d2) in H. by injection H as ->.
  - change (String "-" d1 = String c' (s2 +:+ String "-" d2)) in H.
    injection H as <- ->. by destruct (dash_app s2 d2).
  - change (String c (s1 +:+ String "-" d1) = String "-" d2) in H.
    injection H as -> <-. by destruct (dash_app s1 d1).
  - change (String c (s1 +:+ String "-" d1) = String c' (s2 +:+ String "-" d2)) in H.
    injection H as -> H. by destruct (IH _ H) as [-> ->].
Qed.

Lemma instance_key_inj (n1 n2 : string) (i1 i2 : nat) :
  instance_key n1 i1 = instance_key n2 i2 → n1 = n2 ∧ i1 = i2.
Proof.
  unfold instance_key. intros H.
  change (n1 +:+ String "-" (Py.str_of_nat i1) = n2 +:+ String "-" (Py.str_of_nat i2)) in H.
  apply app_dash_inj in H as [-> H]; [|apply str_of_nat_no_dash..].
  split; [done|]. unfold Py.str_of_nat in H. by apply (inj pretty).
Qed.

(** ** The bounding boxes *)

Lemma fold_left_fmap {A B C : Type} (f : A → B → A) (g : C → B) (l : list C) (a : A) :
  fold_left f (g <$> l) a = fold_left (λ a x, f a (g x)) l a.
Proof. revert a. induction l as [|x l IH]; intros a; simpl; [done|by rewrite IH]. Qed.

Lemma fold_left_ext {A B : Type} (f g : A → B → A) (l : list B) (a : A) :
  (∀ a x, f a x = g a x) → fold_left f l a = fold_left g l a.
Proof.
  intros H. revert a. induction l as [|x l IH]; intros a; simpl; [done|].
  by rewrite H, IH.
Qed.

Lemma extract_label_entries (min_confidence : float)
    (result : list (string * bounding_box)) (l : label) :
  extract_label min_confidence result l =
  fold_left (extract_step min_confidence) (label_entries l) result.
Proof.
  unfold extract_label, label_entries. rewrite fold_left_fmap.
  apply fold_left_ext. by intros r [i inst].
Qed.

Lemma extract_entries (min_confidence : float) (labels : list label)
    (result : list (string * bounding_box)) :
  fold_left (extract_label min_confidence) labels result =
  fold_left (extract_step min_confidence) (labels ≫= label_entries) result.
Proof.
  revert result. induction labels as [|l labels IH]; intros result; [done|].
  rewrite bind_cons, fold_left_app. simpl.
  by rewrite IH, extract_label_entries.
Qed.

Lemma string_eqb_sym (a b : string) : String.eqb a b = String.eqb b a.
Proof. apply String.eqb_sym. Qed.

Lemma string_eqb_trans (a b c : string) :
  String.eqb a b = true → String.eqb b c = true → String.eqb a c = true.
Proof. rewrite !String.eqb_eq. congruence. Qed.

(** The dictionary after the loop holds, for a key, the bounding box of
    the last confident instance with that key. *)
Lemma extract_entries_get (min_confidence : float) (es : list (string * instance))
    (result : list (string * bounding_box)) (k : string) :
  box_dict_get (fold_left (extract_step min_confidence) es result) k =
    match find (λ e, String.eqb e.1 k && confident min_confidence e.2) (reverse es) with
    | Some e => Some (BoundingBox e.2)
    | None => box_dict_get result k
    end.
Proof.
  induction es as [|e es IH] using rev_ind; [done|].
  rewrite fold_left_app, reverse_snoc. simpl. unfold extract_step at 1.
  destruct (confident min_confidence e.2); [|by rewrite andb_false_r].
  rewrite (dict_get_set _ string_eqb_sym string_eqb_trans), andb_true_r.
  by destruct (String.eqb e.1 k).
Qed.

Lemma elem_of_label_entries (l : label) (e : string * instance) :
  e ∈ label_entries l ↔
  ∃ i, default [] (Instances l) !! i = Some e.2 ∧ e.1 = instance_key (Name l) i.
Proof.
  unfold label_entries, enumerate. rewrite list_elem_of_fmap. split.
  - intros ([i inst] & -> & (i' & inst' & [= -> ->] & H)%elem_of_lookup_imap).
    by exists i'.
  - intros (i & H & Hk). exists (i, e.2). split.
    + destruct e. simpl in *. by rewrite Hk.
    + by apply (elem_of_lookup_imap_2 (λ i x, (i, x))).
Qed.

Lemma elem_of_entries (labels : list label) (e : string * instance) :
  e ∈ labels ≫= label_entries ↔
  ∃ l i, l ∈ labels ∧ default [] (Instances l) !! i = Some e.2 ∧
         e.1 = instance_key (Name l) i.
Proof.
  rewrite list_elem_of_bind. split.
  - intros (l & (i & ? & ?)%elem_of_label_entries & ?). by exists l, i.
  - intros (l & i & ? & ? & ?). exists l. split; [|done].
    apply elem_of_label_entries. by exists i.
Qed.

(** Two labels of a list without repeated names are the same label when
    they have the same name. *)
Lemma NoDup_names (labels : list label) (l1 l2 : label) :
  NoDup (Name <$> labels) → l1 ∈ labels → l2 ∈ labels → Name l1 = Name l2 → l1 = l2.
Proof.
  intros Hnd [i Hi]%list_elem_of_lookup [j Hj]%list_elem_of_lookup Hname.
  assert (i = j) as ->; [|congruence].
  eapply NoDup_lookup; [exact Hnd| |];
    rewrite list_lookup_fmap; [by rewrite Hi|by rewrite Hj, Hname].
Qed.

Lemma find_Some_elem {A : Type} (p : A → bool) (l : list A) (x : A) :
  find p l = Some x → x ∈ l ∧ p x = true.
Proof. intros [H ?]%find_some. split; [by apply list_elem_of_In|done]. Qed.

(** Every entry of the result comes from a confident instance. *)
Lemma extract_bounding_boxes_sound (labels : list label) (min_confidence : float)
    (k : string) (b : bounding_box) :
  box_dict_get (extract_bounding_boxes labels min_confidence) k = Some b →
  ∃ l i inst,
    l ∈ labels ∧ default [] (Instances l) !! i = Some inst ∧
    k = instance_key (Name l) i ∧
    (min_confidence <=? Confidence inst)%float = true ∧ b = BoundingBox inst.
Proof.
  unfold extract_bounding_boxes. rewrite extract_entries, extract_entries_get.
  destruct (find _ _) as [[k' inst]|] eqn:Hfind; [|done]. intros [= <-].
  apply find_Some_elem in Hfind as [Hin Hp]. simpl in Hp.
  apply andb_true_iff in Hp as [->%String.eqb_eq Hconf].
  apply elem_of_reverse, elem_of_entries in Hin as (l & i & Hl & Hi & Hk).
  by exists l, i, inst.
Qed.

Lemma extract_bounding_boxes_get (labels : list label) (min_confidence : float)
    (l : label) (i : nat) (inst : instance) :
  NoDup (Name <$> labels) →
  l ∈ labels →
  default [] (Instances l) !! i = Some inst →
  box_dict_get (extract_bounding_boxes labels min_confidence) (instance_key (Name l) i)
  = if (min_confidence <=? Confidence inst)%float then Some (BoundingBox inst) else None.
Proof.
  intros Hnd Hl Hi.
  unfold extract_bounding_boxes. rewrite extract_entries, extract_entries_get.
  set (k := instance_key (Name l) i).
  assert (∀ e, e ∈ labels ≫= label_entries → e.1 = k → e = (k, inst)) as Huniq.
  { intros [k' inst'] (l' & i' & Hl' & Hi' & Hk')%elem_of_entries Hk. simpl in *.
    rewrite Hk. rewrite Hk' in Hk. unfold k in Hk.
    apply instance_key_inj in Hk as [Hname ->].
    assert (l' = l) as -> by by eapply NoDup_names.
    congruence. }
  destruct (find _ _) as [e|] eqn:Hfind.
  - apply find_Some_elem in Hfind as [Hin Hp].
    apply andb_true_iff in Hp as [Hk%String.eqb_eq Hconf].
    rewrite elem_of_reverse in Hin. rewrite (Huniq e Hin Hk) in Hconf |- *.
    unfold confident in Hconf. simpl in *. by rewrite Hconf.
  - destruct (min_confidence <=? Confidence inst)%float eqn:Hconf; [|done].
    assert (In (k, inst) (reverse (labels ≫= label_entries))) as Hin.
    { apply list_elem_of_In. rewrite elem_of_reverse. apply elem_of_entries.
      by exists l, i. }
    pose proof (find_none _ _ Hfind _ Hin) as Hp. simpl in Hp.
    rewrite String.eqb_refl in Hp. unfold confident in Hp. simpl in Hp. congruence.
Qed.

(** C4, as the code has it.  For a list of labels without repeated names
    and every [min_confidence]: the result maps the key [name-index] of an
    instance to its bounding box when the confidence of the instance is
    [min_confidence] or more, and has no entry for that key when it is
    below; and every entry of the result is that of such an instance.  At
    the threshold 75 an instance at 74.999 is left out and one at 75.0 is
    kept. *)
Theorem extract_bounding_boxes_threshold :
  (∀ (labels : list label) (min_confidence : float),
     NoDup (Name <$> labels) →
     (∀ l i inst,
        l ∈ labels →
        default [] (Instances l) !! i = Some inst →
        box_dict_get (extract_bounding_boxes labels min_confidence)
          (instance_key (Name l) i)
        = if (min_confidence <=? Confidence inst)%float
          then Some (BoundingBox inst) else None) ∧
     (∀ k b,
        box_dict_get (extract_bounding_boxes labels min_confidence) k = Some b →
        ∃ l i inst,
          l ∈ labels ∧ default [] (Instances l) !! i = Some inst ∧
          k = instance_key (Name l) i ∧
          (min_confidence <=? Confidence inst)%float = true ∧
          b = BoundingBox inst)) ∧
  Py.dict_keys (extract_bounding_boxes [sky; car] 75) = ["Car-0"; "Car-2"].
Proof.
  split; [|done]. intros labels min_confidence Hnd. split.
  - intros l i inst. by apply extract_bounding_boxes_get.
  - apply extract_bounding_boxes_sound.
Qed.

Lemma extract_bounding_boxes_threshold_witness :
  (∀ l i inst,
     l ∈ [sky; car] →
     default [] (Instances l) !! i = Some inst →
     box_dict_get (extract_bounding_boxes [sky; car] 75) (instance_key (Name l) i)
     = if (75 <=? Confidence inst)%float then Some (BoundingBox inst) else None) ∧
  (∀ k b,
     box_dict_get (extract_bounding_boxes [sky; car] 75) k = Some b →
     ∃ l i inst,
       l ∈ [sky; car] ∧ default [] (Instances l) !! i = Some inst ∧
       k = instance_key (Name l) i ∧
       (75 <=? Confidence inst)%float = true ∧
       b = BoundingBox inst).
Proof.
  apply (proj1 extract_bounding_boxes_threshold [sky; car] 75%float).
  apply (bool_decide_unpack _). by vm_compute.
Defined.

(** C4, as the specification has it, fails on labels with the same name:
    the first instance of the first label has a confidence below the
    threshold, and the result has an entry under its key. *)
Lemma repeated_label_name_shares_key :
  [car_far; car_near] !! 0%nat = Some car_far ∧
  (Confidence <$> (default [] (Instances car_far) !! 0%nat)) = Some 50%float ∧
  (75 <=? 50)%float = false ∧
  is_Some (box_dict_get (extract_bounding_boxes [car_far; car_near] 75)
             (instance_key (Name car_far) 0)).
Proof. do 3 (split; [by vm_compute|]). eexists. by vm_compute. Qed.

(** ** The category of a label *)

(** The lines of [get_label_category] are scanned in order, and the first
    line that starts with the label decides. *)
Lemma scan_lines_find (label : string) (lines : list string) :
  scan_lines label lines =
    match find (λ line, Py.startswith line label) lines with
    | Some line => Some <$> Py.index (Py.split CSV_SEPARATOR line) 1
    | None => Ok None
    end.
Proof.
  induction lines as [|line lines IH]; simpl; [done|].
  by destruct (Py.startswith line label).
Qed.

Lemma readlines_line (s rest : string) :
  lacks "010" s →
  Py.readlines (s +:+ String "010" rest) =
  (s +:+ String "010" EmptyString) :: Py.readlines rest.
Proof.
  induction s as [|c s IH]; simpl; [done|]. intros [Hc Hs].
  rewrite bool_decide_eq_false_2 by done. by rewrite IH.
Qed.

Lemma split_lacks (sep : ascii) (s : string) : lacks sep s → Py.split sep s = [s].
Proof.
  induction s as [|c s IH]; simpl; [done|]. intros [Hc Hs].
  rewrite bool_decide_eq_false_2 by done. by rewrite IH.
Qed.

Lemma split_field (sep : ascii) (s rest : string) :
  lacks sep s → Py.split sep (s +:+ String sep rest) = s :: Py.split sep rest.
Proof.
  induction s as [|c s IH]; simpl.
  - intros _. by rewrite bool_decide_eq_true_2.
  - intros [Hc Hs]. rewrite bool_decide_eq_false_2 by done. by rewrite IH.
Qed.

Lemma lacks_app (c : ascii) (s t : string) : lacks c s → lacks c t → lacks c (s +:+ t).
Proof. induction s; simpl; [done|]. intros [] ?. auto. Qed.

(** A label without comma starts the line of an entry exactly when it
    starts the key of the entry. *)
Lemma prefix_of_line (label key rest : string) :
  lacks "," label →
  String.prefix label (key +:+ String "," rest) = String.prefix label key.
Proof.
  revert key. induction label as [|a label IH]; intros key Hl.
  - by destruct key.
  - destruct Hl as [Ha Hl]. destruct key as [|b key]; simpl.
    + by destruct (ascii_dec a ",").
    + destruct (ascii_dec a b); [by apply IH|done].
Qed.

Lemma readlines_mapping_file (table : Spec.mapping_table) :
  Spec.table_wf table →
  Py.readlines (Spec.mapping_file table) = entry_line <$> table.
Proof.
  induction table as [|[key category] table IH]; [done|].
  intros [[[Hk1 [Hk2 _]] [Hc1 [Hc2 _]]] Hwf]%Forall_cons. simpl.
  replace (key +:+ String "," (category +:+ String "010" (Spec.mapping_file table)))
    with ((key +:+ String "," category) +:+ String "010" (Spec.mapping_file table)).
  - rewrite readlines_line, IH by (try apply lacks_app; done).
    unfold entry_line. simpl. f_equal.
    by rewrite string_app_assoc.
  - by rewrite string_app_assoc.
Qed.

Lemma entry_line_category (e : string * string) :
  lacks "," e.1 → lacks "," e.2 → lacks "010" e.2 →
  Py.index (Py.split CSV_SEPARATOR (entry_line e)) 1
  = Ok (e.2 +:+ String "010" EmptyString).
Proof.
  intros Hk Hc Hn. unfold entry_line, CSV_SEPARATOR.
  rewrite split_field by done. rewrite split_lacks; [done|].
  apply lacks_app; [done|]. by split.
Qed.

Lemma find_fmap {A B : Type} (p : B → bool) (f : A → B) (l : list A) :
  find p (f <$> l) = f <$> find (λ x, p (f x)) l.
Proof. induction l as [|x l IH]; simpl; [done|]. by destruct (p (f x)). Qed.

Lemma find_ext_Forall {A : Type} (p q : A → bool) (l : list A) :
  Forall (λ x, p x = q x) l → find p l = find q l.
Proof. induction 1 as [|x l Hx _ IH]; simpl; [done|]. by rewrite Hx, IH. Qed.

Lemma chomp_line (s : string) : chomp (s +:+ String "010" EmptyString) = s.
Proof.
  induction s as [|c s IH]; [done|].
  rewrite string_app_cons. cbn [chomp].
  destruct s as [|c' s]; [done|].
  rewrite string_app_cons in *. by rewrite IH.
Qed.

(** What the code returns on the file of a table: the text that follows
    the comma on the line of the first entry whose key starts with the
    label. *)
Lemma get_label_category_table (table : Spec.mapping_table) (label_name : string) :
  Spec.table_wf table →
  lacks "," label_name →
  get_label_category (Spec.mapping_file table) label_name =
    Ok ((λ e, e.2 +:+ String "010" EmptyString)
          <$> find (λ e, String.prefix label_name e.1) table).
Proof.
  intros Hwf Hlabel. unfold get_label_category.
  rewrite scan_lines_find, readlines_mapping_file, find_fmap by done.
  rewrite (find_ext_Forall _ (λ e, String.prefix label_name e.1)).
  - destruct (find _ _) as [e|] eqn:Hfind; [|done]. simpl.
    apply find_Some_elem in Hfind as [He _].
    eapply Forall_forall in Hwf; [|exact He]. destruct e as [key category].
    destruct Hwf as [[? ?] [? [? ?]]]. by rewrite entry_line_category.
  - apply Forall_forall. intros [key category] _. unfold Py.startswith, entry_line.
    by apply prefix_of_line.
Qed.

(** C1, amended in the direction of the prefix.  For a label name without
    comma and a mapping table, the lines of the table are scanned in file
    order, and the category found is that of the first entry whose key
    starts with the label name: the label name is a prefix of the key.
    Without such an entry the result is [None].  For "cat" and the table
    ("cat", "Animals"), ("ca", "Vehicles") the category found is "Animals",
    that of the first entry.  The category is compared without the end of
    the line: whether the text returned carries it is not part of the
    statement. *)
Theorem get_label_category_first_match :
  (∀ (table : Spec.mapping_table) (label_name : string),
     Spec.table_wf table →
     lacks "," label_name →
     category_text (get_label_category (Spec.mapping_file table) label_name) =
       Ok (snd <$> find (λ e, String.prefix label_name e.1) table)) ∧
  category_text
    (get_label_category
       (Spec.mapping_file [("cat", "Animals"); ("ca", "Vehicles")]) "cat")
  = Ok (Some "Animals").
Proof.
  split; [|done]. intros table label_name Hwf Hlabel.
  rewrite (get_label_category_table _ _ Hwf Hlabel). unfold category_text.
  destruct (find _ _) as [e|]; [|done]. simpl. by rewrite chomp_line.
Qed.

Lemma get_label_category_first_match_witness :
  category_text
    (get_label_category
       (Spec.mapping_file [("category", "Animals"); ("cat", "Pets")]) "cat")
  = Ok (Some "Animals").
Proof.
  apply (proj1 get_label_category_first_match
           [("category", "Animals"); ("cat", "Pets")] "cat").
  - repeat constructor; by vm_compute.
  - repeat constructor; by vm_compute.
Defined.

(** C1, as the specification has it, fails: the key "Cat" is a prefix of
    the label "Catalog", and the code finds no category for it; the label
    "Ca" has no key as a prefix, and the code finds one. *)
Lemma resolve_prefix_direction :
  (Spec.resolve [("Cat", "Animals")] "Catalog" = Some "Animals" ∧
   get_label_category (Spec.mapping_file [("Cat", "Animals")]) "Catalog" = Ok None) ∧
  (Spec.resolve [("Cat", "Animals")] "Ca" = None ∧
   category_text (get_label_category (Spec.mapping_file [("Cat", "Animals")]) "Ca")
   = Ok (Some "Animals")).
Proof. done. Qed.

(** * Further properties *)

(** ** The images of a directory *)

Lemma image_paths_cons (images_dir : string) (entry : string * bool)
    (listing : list (string * bool)) :
  image_paths images_dir (entry :: listing) =
    if is_image entry
    then Py.path_join images_dir [entry.1] :: image_paths images_dir listing
    else image_paths images_dir listing.
Proof.
  destruct entry as [filename isfile]. unfold image_paths, is_image. simpl.
  by destruct (isfile && has_supported_extension filename).
Qed.

Lemma get_image_paths_loop_cons (images_dir : string) (max : arg_value)
    (entry : string * bool) (listing : list (string * bool)) (images : list string) :
  get_image_paths_loop images_dir max (entry :: listing) images =
    let images' :=
      if is_image entry then images ++ [Py.path_join images_dir [entry.1]] else images in
    if len_equals images' max then images'
    else get_image_paths_loop images_dir max listing images'.
Proof. by destruct entry. Qed.

(** Once the list is longer than the limit, or when the limit is not an
    [int], the test of the loop never holds again. *)
Lemma get_image_paths_loop_all (images_dir : string) (max : arg_value)
    (listing : list (string * bool)) (images : list string) :
  (∀ n, max = ArgInt n → n < Z.of_nat (length images)) →
  get_image_paths_loop images_dir max listing images
  = images ++ image_paths images_dir listing.
Proof.
  revert images. induction listing as [|entry listing IH]; intros images Hmax.
  { simpl. by rewrite app_nil_r. }
  rewrite get_image_paths_loop_cons, image_paths_cons. cbv zeta.
  destruct (is_image entry).
  - assert (len_equals (images ++ [Py.path_join images_dir [entry.1]]) max = false) as ->.
    { destruct max as [n|]; [|done]. simpl. apply Z.eqb_neq.
      specialize (Hmax n eq_refl). rewrite length_app. simpl. lia. }
    rewrite IH, <- app_assoc; [done|].
    intros n ->. specialize (Hmax n eq_refl). rewrite length_app. simpl. lia.
  - assert (len_equals images max = false) as ->.
    { destruct max as [n|]; [|done]. simpl. apply Z.eqb_neq.
      specialize (Hmax n eq_refl). lia. }
    by apply IH.
Qed.

(** Below the limit, the loop stops at the limit. *)
Lemma get_image_paths_loop_take (images_dir : string) (n : Z)
    (listing : list (string * bool)) (images : list string) :
  Z.of_nat (length images) < n →
  get_image_paths_loop images_dir (ArgInt n) listing images
  = take (Z.to_nat n) (images ++ image_paths images_dir listing).
Proof.
  revert images. induction listing as [|entry listing IH]; intros images Hlen.
  { simpl. rewrite app_nil_r, take_ge; [done|lia]. }
  rewrite get_image_paths_loop_cons, image_paths_cons. cbv zeta.
  destruct (is_image entry).
  - simpl. rewrite length_app. simpl.
    destruct (Z.eqb_spec (Z.of_nat (length images + 1)) n) as [Heq|Hne].
    + rewrite (cons_middle _ images (image_paths images_dir listing)), app_assoc,
        take_app_length'; [done|].
      rewrite length_app. simpl. lia.
    + rewrite IH, <- app_assoc; [done|]. rewrite length_app. simpl. lia.
  - simpl. destruct (Z.eqb_spec (Z.of_nat (length images)) n) as [Heq|Hne]; [lia|].
    by apply IH.
Qed.

(** X1. Without a limit (the default [max=-1], or any negative [int]),
    [get_image_paths] returns the path of every regular file with a
    supported extension, in the order of the listing. *)
Theorem get_image_paths_no_limit (images_dir : string) (n : Z)
    (listing : list (string * bool)) :
  n < 0 →
  get_image_paths images_dir (ArgInt n) listing = image_paths images_dir listing.
Proof.
  intros Hn. unfold get_image_paths.
  rewrite get_image_paths_loop_all; [done|]. intros ? [= <-]. simpl. lia.
Qed.

Lemma get_image_paths_no_limit_witness :
  get_image_paths "imgs" (ArgInt (-1)) sample_listing
  = image_paths "imgs" sample_listing.
Proof. apply (get_image_paths_no_limit "imgs" (-1) sample_listing). lia. Defined.

(** X2. With a positive limit, [get_image_paths] returns the first [max]
    images of the listing, and all of them when there are fewer. *)
Theorem get_image_paths_limit (images_dir : string) (n : Z)
    (listing : list (string * bool)) :
  0 < n →
  get_image_paths images_dir (ArgInt n) listing
  = take (Z.to_nat n) (image_paths images_dir listing).
Proof. intros Hn. unfold get_image_paths. by rewrite get_image_paths_loop_take. Qed.

Lemma get_image_paths_limit_witness :
  get_image_paths "imgs" (ArgInt 2) sample_listing
  = take (Z.to_nat 2) (image_paths "imgs" sample_listing).
Proof. apply (get_image_paths_limit "imgs" 2 sample_listing). lia. Defined.

(** X3. With the limit 0, [get_image_paths] returns no image when the
    listing is empty or begins with an entry that is not an image; when
    the listing begins with an image, the limit is passed at once and
    every image of the listing is returned. *)
Theorem get_image_paths_limit_zero (images_dir : string)
    (listing : list (string * bool)) :
  get_image_paths images_dir (ArgInt 0) listing =
    match listing with
    | [] => []
    | entry :: _ => if is_image entry then image_paths images_dir listing else []
    end.
Proof.
  destruct listing as [|entry listing]; [done|].
  unfold get_image_paths.
  rewrite get_image_paths_loop_cons, image_paths_cons. cbv zeta.
  destruct (is_image entry); [|done].
  simpl. rewrite get_image_paths_loop_all; [done|].
  intros ? [= <-]. simpl. lia.
Qed.

(** X4. [--max_image_count] has no [type]: a limit given on the command
    line is a [str], which no length equals, so that every image of the
    directory is returned whatever the text; only the default applies as a
    limit, and it keeps the first 20 images. *)
Theorem max_image_count_given_is_ignored (images_dir : string)
    (listing : list (string * bool)) :
  (∀ text, get_image_paths images_dir (args_max_image_count (Some text)) listing
           = image_paths images_dir listing) ∧
  get_image_paths images_dir (args_max_image_count None) listing
  = take 20 (image_paths images_dir listing).
Proof.
  split.
  - intros text. unfold get_image_paths. by rewrite get_image_paths_loop_all.
  - unfold get_image_paths. simpl. by rewrite get_image_paths_loop_take.
Qed.

Lemma get_image_paths_take (images_dir : string) (max : arg_value)
    (listing : list (string * bool)) :
  ∃ k, get_image_paths images_dir max listing = take k (image_paths images_dir listing).
Proof.
  unfold get_image_paths. destruct max as [n|text].
  - destruct (Z.lt_trichotomy n 0) as [Hn|[->|Hn]].
    + exists (length (image_paths images_dir listing)).
      rewrite firstn_all, get_image_paths_loop_all; [done|].
      intros ? [= <-]. simpl. lia.
    + destruct listing as [|entry listing]; [by exists 0%nat|].
      rewrite get_image_paths_loop_cons. cbv zeta.
      destruct (is_image entry) eqn:Himage; [|by exists 0%nat].
      exists (length (image_paths images_dir (entry :: listing))).
      rewrite firstn_all, image_paths_cons, Himage. simpl.
      rewrite get_image_paths_loop_all; [done|]. intros ? [= <-]. simpl. lia.
    + exists (Z.to_nat n). by rewrite get_image_paths_loop_take.
  - exists (length (image_paths images_dir listing)).
    by rewrite firstn_all, get_image_paths_loop_all.
Qed.

Lemma elem_of_image_paths (images_dir : string) (listing : list (string * bool))
    (path : string) :
  path ∈ image_paths images_dir listing ↔
  ∃ filename,
    (filename, true) ∈ listing ∧
    has_supported_extension filename = true ∧
    path = Py.path_join images_dir [filename].
Proof.
  unfold image_paths. rewrite list_elem_of_omap. split.
  - intros ([filename isfile] & Hin & Hsome).
    destruct isfile, (has_supported_extension filename) eqn:Hext; try done.
    simpl in Hsome. injection Hsome as <-. by exists filename.
  - intros (filename & Hin & Hext & ->). exists (filename, true).
    split; [done|]. by rewrite Hext.
Qed.

(** ** The extension of a file name *)

Lemma rfind_lacks (c : ascii) (s : string) : lacks c s → PyStr.rfind c s = -1.
Proof.
  induction s as [|a s IH]; [done|]. intros [Ha Hs]. simpl.
  rewrite (IH Hs). simpl. by rewrite bool_decide_eq_false_2.
Qed.

Lemma rfind_last (c : ascii) (s t : string) :
  lacks c t → PyStr.rfind c (s +:+ String c t) = Z.of_nat (String.length s).
Proof.
  intros Ht. induction s as [|a s IH].
  - change (EmptyString +:+ String c t) with (String c t). simpl.
    rewrite (rfind_lacks c t Ht). simpl. by rewrite bool_decide_eq_true_2.
  - rewrite string_app_cons. cbn [PyStr.rfind String.length]. rewrite IH.
    destruct (Z.leb_spec 0 (Z.of_nat (String.length s))); lia.
Qed.

(** A string has no [c], or a last one. *)
Lemma last_occurrence (c : ascii) (s : string) :
  lacks c s ∨ ∃ pre post, s = pre +:+ String c post ∧ lacks c post.
Proof.
  induction s as [|a s IH]; [by left|].
  destruct IH as [Hs|(pre & post & -> & Hpost)].
  - destruct (decide (a = c)) as [->|Ha].
    + right. by exists EmptyString, s.
    + by left.
  - right. exists (String a pre), post. by rewrite string_app_cons.
Qed.

Lemma take_length_app (s t : string) : PyStr.take (String.length s) (s +:+ t) = s.
Proof.
  induction s as [|a s IH]; [by destruct t|].
  rewrite string_app_cons. simpl. by rewrite IH.
Qed.

Lemma drop_length_app (s t : string) : PyStr.drop (String.length s) (s +:+ t) = t.
Proof. induction s as [|a s IH]; [by destruct t|]. by rewrite string_app_cons. Qed.

Lemma length_string_app (s t : string) :
  String.length (s +:+ t) = (String.length s + String.length t)%nat.
Proof. induction s as [|a s IH]; [done|]. rewrite string_app_cons. simpl. by rewrite IH. Qed.

(** The loop over the characters [s] of the file name before its last
    dot: it gives up when they are all dots. *)
Lemma splitext_loop_spec (pre s rest : string) (dotIndex : nat) :
  let p := pre +:+ s +:+ rest in
  rest ≠ EmptyString →
  (all_dots s →
   PyStr.splitext_loop p dotIndex (String.length pre) (String.length s) = None) ∧
  (¬ all_dots s →
   PyStr.splitext_loop p dotIndex (String.length pre) (String.length s)
   = Some (PyStr.take dotIndex p, PyStr.drop dotIndex p)).
Proof.
  intros p Hrest. subst p. revert pre. induction s as [|a s IH]; intros pre.
  { split; [done|]. intros []. done. }
  cbn [String.length PyStr.splitext_loop].
  rewrite drop_length_app, string_app_cons. cbn [PyStr.take].
  destruct (decide (a = "."%char)) as [->|Ha].
  - change (negb (String "." EmptyString =? ".")%string) with false. cbv iota.
    specialize (IH (pre +:+ ".")).
    rewrite length_string_app, Nat.add_1_r, string_app_assoc in IH.
    change ("." +:+ s +:+ rest) with (String "." (s +:+ rest)) in IH.
    apply IH.
  - assert ((String a EmptyString =? ".")%string = false) as ->.
    { apply String.eqb_neq. congruence. }
    cbn [negb]. split; [|done].
    unfold all_dots. simpl. by rewrite bool_decide_eq_false_2.
Qed.

(** [os.path.splitext] on a file name: the extension starts at the last
    dot, unless only dots come before it. *)
Lemma splitext_filename (stem e : string) :
  lacks "/" (stem +:+ String "." e) → lacks "." e →
  PyStr.splitext (stem +:+ String "." e) =
    if decide (all_dots stem) then (stem +:+ String "." e, EmptyString)
    else (stem, String "." e).
Proof.
  intros Hsep Hdot. unfold PyStr.splitext.
  rewrite (rfind_lacks _ _ Hsep), (rfind_last _ _ _ Hdot).
  destruct (Z.ltb_spec (-1) (Z.of_nat (String.length stem))) as [_|]; [|lia].
  cbv zeta. change (-1 + 1) with 0. rewrite Z.sub_0_r, Nat2Z.id.
  change (Z.to_nat 0) with (String.length EmptyString).
  destruct (splitext_loop_spec EmptyString stem (String "." e) (String.length stem))
    as [Hall Hsome]; [done|].
  change (EmptyString +:+ stem +:+ String "." e) with (stem +:+ String "." e) in *.
  destruct (decide (all_dots stem)) as [Hd|Hd].
  - by rewrite (Hall Hd).
  - by rewrite (Hsome Hd), take_length_app, drop_length_app.
Qed.

Lemma splitext_no_dot (p : string) : lacks "." p → PyStr.splitext p = (p, EmptyString).
Proof.
  intros Hdot. unfold PyStr.splitext. rewrite (rfind_lacks _ _ Hdot).
  destruct (last_occurrence "/" p) as [Hsep|(pre & post & -> & Hpost)].
  - by rewrite (rfind_lacks _ _ Hsep).
  - rewrite (rfind_last _ _ _ Hpost).
    destruct (Z.ltb_spec (Z.of_nat (String.length pre)) (-1)); [lia|done].
Qed.

Lemma lower_char_dot (a : ascii) : PyStr.lower_char a = "."%char → a = "."%char.
Proof. destruct a as [[] [] [] [] [] [] [] []]; vm_compute; congruence. Qed.

Lemma lacks_lower (s : string) : lacks "." (PyStr.lower s) → lacks "." s.
Proof.
  induction s as [|a s IH]; [done|]. simpl. intros [Ha Hs]. split; [|by apply IH].
  intros ->. by apply Ha.
Qed.

Lemma lower_lacks (s : string) : lacks "." s → lacks "." (PyStr.lower s).
Proof.
  induction s as [|a s IH]; [done|]. simpl. intros [Ha Hs]. split; [|by apply IH].
  intros Hlow. by apply Ha, lower_char_dot.
Qed.

Lemma lstrip_lacks (c : ascii) (s : string) : lacks c s → PyStr.lstrip c s = s.
Proof. destruct s as [|a s]; [done|]. intros [Ha _]. simpl. by rewrite bool_decide_eq_false_2. Qed.

Lemma supported_lacks_dot (e : string) : e ∈ SUPPORTED_EXTENSIONS → lacks "." e.
Proof.
  unfold SUPPORTED_EXTENSIONS. rewrite !elem_of_cons, elem_of_nil.
  intros [->|[->|[->|[]]]]; simpl; repeat split; done.
Qed.

(** X5. The extension test of [get_image_paths] on the name of a
    directory entry: the name is accepted exactly when it ends, after its
    last dot, in jpg, jpeg or png in any mix of upper and lower case, and
    something other than dots comes before that dot.  So [photo.JPG] and
    [a.tar.png] are images, and the hidden file [.png] is not. *)
Theorem has_supported_extension_spec (filename : string) :
  lacks "/" filename →
  has_supported_extension filename = true ↔
  ∃ stem e,
    filename = stem +:+ "." +:+ e ∧
    ¬ all_dots stem ∧
    PyStr.lower e ∈ SUPPORTED_EXTENSIONS.
Proof.
  intros Hsep. unfold has_supported_extension. rewrite bool_decide_eq_true. split.
  - destruct (last_occurrence "." filename) as [Hdot|(stem & e & -> & He)].
    { rewrite (splitext_no_dot _ Hdot). simpl.
      unfold SUPPORTED_EXTENSIONS. rewrite !elem_of_cons, elem_of_nil.
      by intros [?|[?|[?|[]]]]. }
    rewrite (splitext_filename _ _ Hsep He).
    destruct (decide (all_dots stem)) as [Hd|Hd].
    { simpl. unfold SUPPORTED_EXTENSIONS. rewrite !elem_of_cons, elem_of_nil.
      by intros [?|[?|[?|[]]]]. }
    cbn [snd PyStr.lower].
    change (PyStr.lower_char ".") with "."%char. cbn [PyStr.lstrip].
    rewrite bool_decide_eq_true_2 by done.
    rewrite (lstrip_lacks _ _ (lower_lacks e He)). intros Hin. by exists stem, e.
  - intros (stem & e & -> & Hd & Hin).
    pose proof (lacks_lower e (supported_lacks_dot _ Hin)) as He.
    change ("." +:+ e) with (String "." e) in *.
    rewrite (splitext_filename _ _ Hsep He).
    destruct (decide (all_dots stem)) as [Hd'|_]; [done|].
    cbn [snd PyStr.lower].
    change (PyStr.lower_char ".") with "."%char. cbn [PyStr.lstrip].
    rewrite bool_decide_eq_true_2 by done.
    by rewrite (lstrip_lacks _ _ (supported_lacks_dot _ Hin)).
Qed.

Lemma has_supported_extension_spec_witness :
  has_supported_extension "a.tar.PnG" = true ↔
  ∃ stem e,
    "a.tar.PnG" = stem +:+ "." +:+ e ∧
    ¬ all_dots stem ∧
    PyStr.lower e ∈ SUPPORTED_EXTENSIONS.
Proof. apply (has_supported_extension_spec "a.tar.PnG"). simpl. repeat split; done. Defined.

Example extension_samples :
  has_supported_extension "photo.JPG" = true ∧
  has_supported_extension ".png" = false ∧
  has_supported_extension "png" = false ∧
  has_supported_extension "a.png.txt" = false ∧
  has_supported_extension "a..jpeg" = true.
Proof. by vm_compute. Qed.

(** ** The name of an image *)

Lemma split_last (sep : ascii) (s f : string) :
  lacks sep f →
  ∃ field fields, Py.split sep (s +:+ String sep f) = (field :: fields) ++ [f].
Proof.
  intros Hf. induction s as [|c s (field & fields & IH)].
  - change (EmptyString +:+ String sep f) with (String sep f). simpl.
    rewrite bool_decide_eq_true_2 by done. rewrite (split_lacks _ _ Hf).
    by exists EmptyString, [].
  - rewrite string_app_cons. simpl. rewrite IH. case_bool_decide.
    + by exists EmptyString, (field :: fields).
    + by exists (String c field), fields.
Qed.

Lemma endswith_char_last (s : string) (c : ascii) :
  Py.endswith_char s c = true → ∃ s', s = s' +:+ String c EmptyString.
Proof.
  induction s as [|a s IH]; [done|]. destruct s as [|b s].
  - simpl. intros ->%bool_decide_eq_true. by exists EmptyString.
  - intros H. destruct (IH H) as [s' ->]. by exists (String a s').
Qed.

Lemma startswith_lacks (c : ascii) (s : string) :
  lacks c s → Py.startswith s (String c EmptyString) = false.
Proof.
  destruct s as [|a s]; [done|]. intros [Ha _]. unfold Py.startswith. simpl.
  by destruct (ascii_dec c a) as [->|].
Qed.

Lemma basename_lacks (s : string) : lacks "/" s → Py.basename s = s.
Proof. intros Hs. unfold Py.basename. by rewrite (split_lacks _ _ Hs). Qed.

Lemma basename_after_slash (s f : string) :
  lacks "/" f → Py.basename (s +:+ String "/" f) = f.
Proof.
  intros Hf. unfold Py.basename.
  destruct (split_last "/" s f Hf) as (field & fields & ->).
  apply List.last_last.
Qed.

Lemma basename_path_join (images_dir filename : string) :
  lacks "/" filename →
  Py.basename (Py.path_join images_dir [filename]) = filename.
Proof.
  intros Hf. unfold Py.path_join. simpl. unfold Py.path_join1.
  rewrite (startswith_lacks _ _ Hf).
  case_bool_decide as Hdir; simpl.
  { subst. by apply basename_lacks. }
  destruct (Py.endswith_char images_dir "/") eqn:Hend.
  - destruct (endswith_char_last _ _ Hend) as [s' ->].
    rewrite string_app_assoc. by apply basename_after_slash.
  - by apply basename_after_slash.
Qed.

(** X6. The name under which an image is copied is the name its file has
    in the listing: [os.path.basename] undoes the [os.path.join] of
    [get_image_paths], whatever the directory. *)
Theorem basename_of_image_path (images_dir filename : string) :
  lacks "/" filename →
  image_name (Py.path_join images_dir [filename]) = filename.
Proof. apply basename_path_join. Qed.

Lemma basename_of_image_path_witness :
  image_name (Py.path_join "imgs/" ["b.JPG"]) = "b.JPG".
Proof. apply (basename_of_image_path "imgs/" "b.JPG"). simpl. repeat split; done. Defined.

(** X24. Whatever the limit, every path that [get_image_paths] returns is
    the path of an entry of the listing that is a regular file with a
    supported extension, and the file name that classify.py later takes
    from the path is the name of that entry. *)
Theorem get_image_paths_sound (images_dir : string) (max : arg_value)
    (listing : list (string * bool)) (path : string) :
  Forall (λ entry, lacks "/" entry.1) listing →
  path ∈ get_image_paths images_dir max listing →
  ∃ filename,
    (filename, true) ∈ listing ∧
    has_supported_extension filename = true ∧
    path = Py.path_join images_dir [filename] ∧
    image_name path = filename.
Proof.
  intros Hnames Hin.
  destruct (get_image_paths_take images_dir max listing) as [k Hk].
  rewrite Hk in Hin. apply elem_of_take in Hin as (i & Hin%list_elem_of_lookup_2 & _).
  apply elem_of_image_paths in Hin as (filename & Hentry & Hext & ->).
  exists filename. repeat split; try done.
  apply basename_path_join.
  by apply (proj1 (Forall_forall _ _) Hnames) in Hentry.
Qed.

Lemma get_image_paths_sound_witness :
  ∃ filename,
    (filename, true) ∈ sample_listing ∧
    has_supported_extension filename = true ∧
    "imgs/b.JPG" = Py.path_join "imgs" [filename] ∧
    image_name "imgs/b.JPG" = filename.
Proof.
  apply (get_image_paths_sound "imgs" (ArgInt 2) sample_listing "imgs/b.JPG").
  - repeat constructor; discriminate.
  - apply (bool_decide_unpack _). by vm_compute.
Defined.

(** ** The effects of sorting *)

(** X7. An exception in one image ends the whole run of classify.py: the
    images before it are sorted, the effects of the failing image up to
    the exception remain, and no image after it is looked at. *)
Theorem classify_images_stop_at_exception
    (OUTPUT_DIR mapping : string) (args_min_sharpness : float)
    (before after : list (string * response)) (image_path : string) (resp : response)
    (t : list effect) (e : exn) :
  outcome (classify_images OUTPUT_DIR mapping args_min_sharpness before) = Ok tt →
  classify_image OUTPUT_DIR mapping args_min_sharpness image_path resp = (t, Raise e) →
  classify_images OUTPUT_DIR mapping args_min_sharpness
    (before ++ (image_path, resp) :: after)
  = (trace (classify_images OUTPUT_DIR mapping args_min_sharpness before) ++ t, Raise e).
Proof.
  unfold classify_images. intros Hbefore Himage.
  destruct (for_each _ before) as [t0 [[]|e0]] eqn:Hrun; [|done].
  rewrite (for_each_app_ok _ _ _ _ Hrun).
  rewrite (for_each_cons_raise _ _ _ t e); [done|]. by rewrite Himage.
Qed.

Lemma classify_images_stop_at_exception_witness :
  classify_images "out" (Spec.mapping_file [("Car", "Vehicles")]) 60
    ([("imgs/a.jpg", sample_response (Some 50%float))]
     ++ ("imgs/b.jpg", sample_response (Some 80%float))
     :: [("imgs/c.jpg", sample_response (Some 80%float))])
  = (trace (classify_images "out" (Spec.mapping_file [("Car", "Vehicles")]) 60
              [("imgs/a.jpg", sample_response (Some 50%float))])
     ++ [Makedirs "out/colors/Blue"; Copy "imgs/b.jpg" "out/colors/Blue/b.jpg"],
     Raise TypeError).
Proof.
  apply (classify_images_stop_at_exception "out"
           (Spec.mapping_file [("Car", "Vehicles")]) 60
           [("imgs/a.jpg", sample_response (Some 50%float))]
           [("imgs/c.jpg", sample_response (Some 80%float))]
           "imgs/b.jpg" (sample_response (Some 80%float))).
  - reflexivity.
  - reflexivity.
Defined.

Lemma trace_bind {A B : Type} (m : io A) (f : A → io B) :
  trace (m ≫= f) =
    match outcome m with
    | Ok a => trace m ++ trace (f a)
    | Raise _ => trace m
    end.
Proof. destruct m as [t [a|e]]; [|done]. by rewrite io_bind_ok. Qed.

Lemma category_effects_bind (image_path : string) (ds1 ds2 : list string) :
  (ds1 ++ ds2) ≫= category_effects image_path
  = (ds1 ≫= category_effects image_path) ++ (ds2 ≫= category_effects image_path).
Proof. apply bind_app. Qed.

Lemma categorize_label_trace (OUTPUT_DIR mapping image_path : string) (l : label) :
  let t := trace (categorize_label OUTPUT_DIR mapping image_path l) in
  t = destinations t ≫= category_effects image_path.
Proof.
  unfold categorize_label. destruct (Py.truth (Instances l)); [done|]. simpl.
  by destruct (get_label_category mapping (Name l)) as [[category|]|e].
Qed.

Lemma for_each_categorize_trace (OUTPUT_DIR mapping image_path : string)
    (labels : list label) :
  let t := trace (for_each (categorize_label OUTPUT_DIR mapping image_path) labels) in
  t = destinations t ≫= category_effects image_path.
Proof.
  induction labels as [|l labels IH]; [done|]. cbv zeta in *.
  cbn [for_each]. rewrite trace_bind.
  pose proof (categorize_label_trace OUTPUT_DIR mapping image_path l) as Hl.
  cbv zeta in Hl.
  destruct (outcome _); [|done].
  rewrite destinations_app, category_effects_bind. by rewrite <- Hl, <- IH.
Qed.

(** X8. Whatever the detection result, sorting an image either prints the
    blurry message and nothing else, or does nothing but make directories
    and, right after each, copy the image into it under its own name;
    this holds also for a run that ends in an exception. *)
Theorem classify_image_effects
    (OUTPUT_DIR mapping : string) (args_min_sharpness : float)
    (image_path : string) (resp : response) :
  let t := trace (classify_image OUTPUT_DIR mapping args_min_sharpness image_path resp) in
  t = [Print (blurry_message image_path)] ∨
  t = destinations t ≫= category_effects image_path.
Proof.
  cbv zeta. unfold classify_image.
  destruct (ImageProperties resp) as [props|]; [|by right].
  rewrite lift_bind_ok.
  destruct (is_sharp props args_min_sharpness); [|by left].
  right. cbn [negb].
  destruct (get_dominant_color_name props) as [[color|]|e]; try done.
  rewrite lift_bind_ok.
  change (Py.path_join_opt (colors_dir OUTPUT_DIR) [Some color])
    with (Ok (Py.path_join (colors_dir OUTPUT_DIR) [color])).
  rewrite lift_bind_ok, trace_bind, make_category_run. cbn [outcome snd trace fst].
  rewrite trace_bind. destruct (Labels resp) as [labels|]; [|done].
  cbn [iterable lift outcome snd trace fst app]. rewrite trace_bind.
  pose proof (for_each_categorize_trace OUTPUT_DIR mapping image_path labels) as Hl.
  cbv zeta in Hl.
  assert (∀ t0 : list effect,
            t0 = destinations t0 ≫= category_effects image_path →
            category_effects image_path (Py.path_join (colors_dir OUTPUT_DIR) [color]) ++ t0
            = destinations
                (category_effects image_path (Py.path_join (colors_dir OUTPUT_DIR) [color])
                 ++ t0) ≫= category_effects image_path) as Hshape.
  { intros t0 Ht0. rewrite destinations_app, category_effects_bind, <- Ht0.
    change (destinations (category_effects image_path ?d)) with [d].
    rewrite bind_cons.
    change ([] ≫= category_effects image_path) with (@nil effect).
    by rewrite app_nil_r. }
  destruct (outcome _).
  - simpl. rewrite app_nil_r. by apply Hshape.
  - by apply Hshape.
Qed.

(** X9. What a detection result without the expected keys does to the
    sorting of its image: without [ImageProperties] the sharpness test
    raises [AttributeError], and a sharp image without [DominantColors]
    raises [TypeError], both before anything is written; without [Labels]
    the image is first copied into the directory of its colour, and then
    the loop over the labels raises [TypeError]. *)
Theorem classify_image_missing_keys
    (OUTPUT_DIR mapping : string) (args_min_sharpness : float)
    (image_path : string) (resp : response) :
  (ImageProperties resp = None →
   classify_image OUTPUT_DIR mapping args_min_sharpness image_path resp
   = ([], Raise AttributeError)) ∧
  (∀ props,
     ImageProperties resp = Some props →
     is_sharp props args_min_sharpness = true →
     DominantColors props = None →
     classify_image OUTPUT_DIR mapping args_min_sharpness image_path resp
     = ([], Raise TypeError)) ∧
  (∀ props color,
     ImageProperties resp = Some props →
     is_sharp props args_min_sharpness = true →
     get_dominant_color_name props = Ok (Some color) →
     Labels resp = None →
     classify_image OUTPUT_DIR mapping args_min_sharpness image_path resp
     = (category_effects image_path (Py.path_join (colors_dir OUTPUT_DIR) [color]),
        Raise TypeError)).
Proof.
  unfold classify_image. repeat split.
  - by intros ->.
  - intros props -> Hsharp Hcolors. rewrite lift_bind_ok, Hsharp. cbn [negb].
    unfold get_dominant_color_name. by rewrite Hcolors.
  - intros props color -> Hsharp Hcolor Hlabels.
    rewrite lift_bind_ok, Hsharp, Hcolor, Hlabels. cbn [negb].
    rewrite lift_bind_ok.
    change (Py.path_join_opt (colors_dir OUTPUT_DIR) [Some color])
      with (Ok (Py.path_join (colors_dir OUTPUT_DIR) [color])).
    by rewrite lift_bind_ok, make_category_run.
Qed.

Lemma classify_image_missing_keys_witness :
  classify_image "out" sample_mapping 60 "imgs/a.jpg"
    {| ImageProperties := None; Labels := Some [sky] |}
  = ([], Raise AttributeError) ∧
  classify_image "out" sample_mapping 60 "imgs/a.jpg"
    {| ImageProperties := Some {| Quality := None; DominantColors := None |};
       Labels := Some [sky] |}
  = ([], Raise TypeError) ∧
  classify_image "out" sample_mapping 60 "imgs/a.jpg"
    {| ImageProperties := Some (sample_properties None); Labels := None |}
  = (category_effects "imgs/a.jpg" (Py.path_join (colors_dir "out") ["Blue"]),
     Raise TypeError).
Proof.
  split; [|split].
  - apply (classify_image_missing_keys "out" sample_mapping 60 "imgs/a.jpg"
             {| ImageProperties := None; Labels := Some [sky] |}).
    reflexivity.
  - apply (classify_image_missing_keys "out" sample_mapping 60 "imgs/a.jpg"
             {| ImageProperties := Some {| Quality := None; DominantColors := None |};
                Labels := Some [sky] |})
      with (props := {| Quality := None; DominantColors := None |});
      reflexivity.
  - apply (classify_image_missing_keys "out" sample_mapping 60 "imgs/a.jpg"
             {| ImageProperties := Some (sample_properties None); Labels := None |})
      with (props := sample_properties None);
      reflexivity.
Defined.

(** ** The sharpness gate and the order of floats *)

Lemma sf_leb_ltb_trans x y z : SFleb x y = true → SFltb y z = true → SFltb x z = true.
Proof. sf_solve. Qed.

Lemma sf_leb_antisym x y : SFleb x y = true → SFleb y x = true → SFeqb x y = true.
Proof. sf_solve. Qed.

Lemma float_leb_ltb_trans x y z :
  (x <=? y)%float = true → (y <? z)%float = true → (x <? z)%float = true.
Proof. rewrite FloatAxioms.leb_spec, !FloatAxioms.ltb_spec. apply sf_leb_ltb_trans. Qed.

Lemma float_leb_antisym x y :
  (x <=? y)%float = true → (y <=? x)%float = true → (x =? y)%float = true.
Proof. rewrite !FloatAxioms.leb_spec, FloatAxioms.eqb_spec. apply sf_leb_antisym. Qed.

Lemma float_nan_spec x : is_nan x = true → Prim2SF x = S754_nan.
Proof.
  intros Hnan. destruct (Prim2SF x) eqn:Hx; try done;
    exfalso; (assert (is_number x) as Hnum by (apply FloatOrder.number_spec; by rewrite Hx));
    unfold is_number in Hnum; congruence.
Qed.

Lemma float_ltb_nan x y :
  is_nan x = true → (x <? y)%float = false ∧ (y <? x)%float = false.
Proof.
  intros Hx%float_nan_spec. rewrite !FloatAxioms.ltb_spec, Hx. split; [done|].
  unfold SFltb. by destruct (Prim2SF y) as [[]|[]| |[] ? ?].
Qed.

(** X10. The sharpness gate is monotone in the threshold: an image that
    is sharp for a threshold is sharp for every lower threshold; so a
    lower [--min_sharpness] never skips an image that a higher one
    sorts. *)
Theorem is_sharp_lower_threshold (props : image_properties) (low high : float) :
  (low <=? high)%float = true →
  is_sharp props high = true →
  is_sharp props low = true.
Proof. unfold is_sharp. apply float_leb_ltb_trans. Qed.

Lemma is_sharp_lower_threshold_witness :
  is_sharp (sample_properties (Some 61.5%float)) 50 = true.
Proof.
  apply (is_sharp_lower_threshold (sample_properties (Some 61.5%float)) 50 60);
    reflexivity.
Defined.

(** X11. A NaN is never sharp: with a threshold that is not a number
    (as [--min_sharpness nan] gives), or a sharpness score that is not a
    number, the comparison is false and the image counts as blurry. *)
Theorem is_sharp_nan (props : image_properties) (threshold : float) :
  (is_nan threshold = true → is_sharp props threshold = false) ∧
  (∀ s, sharpness_of props = Some s → is_nan s = true →
        is_sharp props threshold = false).
Proof.
  unfold is_sharp. split.
  - intros Hnan. apply (float_ltb_nan threshold _ Hnan).
  - intros s Hs Hnan. rewrite avg_sharpness_of, Hs. apply (float_ltb_nan s _ Hnan).
Qed.

Lemma is_sharp_nan_witness :
  is_sharp (sample_properties None) nan = false ∧
  is_sharp (sample_properties (Some nan)) 60 = false.
Proof.
  split.
  - apply (is_sharp_nan (sample_properties None) nan). reflexivity.
  - apply (is_sharp_nan (sample_properties (Some nan)) 60) with (s := nan); reflexivity.
Defined.

(** ** The dominant colour and the order of the observations *)

Lemma last_max_above (colors pre post : list color) (c c' : color) :
  colors = pre ++ c :: post →
  is_number (pixel_percent c) →
  Forall (λ c', (pixel_percent c' <=? pixel_percent c)%float = true) pre →
  Forall (λ c', (pixel_percent c' <? pixel_percent c)%float = true) post →
  c' ∈ colors →
  (pixel_percent c' <=? pixel_percent c)%float = true.
Proof.
  intros -> Hnum Hpre Hpost. rewrite elem_of_app, elem_of_cons.
  intros [Hin|[->|Hin]].
  - by apply (proj1 (Forall_forall _ _) Hpre).
  - by apply FloatOrder.leb_refl.
  - by apply FloatOrder.ltb_leb, (proj1 (Forall_forall _ _) Hpost).
Qed.

(** X12. The order of the colour observations does not matter as long as
    observations with the same percentage carry the same colour name:
    [get_dominant_color_name] gives the same answer on every
    rearrangement of them. *)
Theorem dominant_color_order_irrelevant
    (props props' : image_properties) (colors colors' : list color) :
  DominantColors props = Some colors →
  DominantColors props' = Some colors' →
  colors ≡ₚ colors' →
  Forall (λ c, is_number (pixel_percent c)) colors →
  (∀ c1 c2, c1 ∈ colors → c2 ∈ colors →
            (pixel_percent c1 =? pixel_percent c2)%float = true →
            SimplifiedColor c1 = SimplifiedColor c2) →
  get_dominant_color_name props = get_dominant_color_name props'.
Proof.
  intros Hc Hc' Hperm Hnum Hsame.
  destruct (decide (colors = [])) as [->|Hne].
  { apply Permutation_nil_l in Hperm. subst.
    unfold get_dominant_color_name. by rewrite Hc, Hc'. }
  assert (colors' ≠ []) as Hne'.
  { intros ->. by apply Hne, Permutation_nil_r. }
  assert (Forall (λ c, is_number (pixel_percent c)) colors') as Hnum'.
  { by rewrite <- Hperm. }
  destruct (dominant_color_last_max props colors Hc Hne Hnum)
    as (pre & c & post & Hsplit & Hpre & Hpost & ->).
  destruct (dominant_color_last_max props' colors' Hc' Hne' Hnum')
    as (pre' & c' & post' & Hsplit' & Hpre' & Hpost' & ->).
  assert (c ∈ colors) as Hin.
  { rewrite Hsplit, elem_of_app, elem_of_cons. auto. }
  assert (c' ∈ colors') as Hin'.
  { rewrite Hsplit', elem_of_app, elem_of_cons. auto. }
  f_equal. apply Hsame; [done|by rewrite Hperm|].
  apply float_leb_antisym.
  - apply (last_max_above colors' pre' post' c' c); try done.
    + by apply (proj1 (Forall_forall _ _) Hnum').
    + by rewrite <- Hperm.
  - apply (last_max_above colors pre post c c'); try done.
    + by apply (proj1 (Forall_forall _ _) Hnum).
    + by rewrite Hperm.
Qed.

Lemma dominant_color_order_irrelevant_witness :
  get_dominant_color_name (sample_properties None)
  = get_dominant_color_name
      {| Quality := None; DominantColors := Some (reverse sample_colors) |}.
Proof.
  apply (dominant_color_order_irrelevant (sample_properties None)
           {| Quality := None; DominantColors := Some (reverse sample_colors) |}
           sample_colors (reverse sample_colors)).
  - reflexivity.
  - reflexivity.
  - symmetry. apply reverse_Permutation.
  - repeat constructor.
  - intros c1 c2. unfold sample_colors. rewrite !elem_of_cons, !elem_of_nil.
    intros [->|[->|[]]] [->|[->|[]]]; vm_compute; congruence.
Defined.

(** ** The line of a label *)

Lemma split_second (key c rest : string) :
  lacks "," key → lacks "," c →
  Py.index (Py.split "," (key +:+ String "," c)) 1 = Ok c ∧
  Py.index (Py.split "," (key +:+ String "," (c +:+ String "," rest))) 1 = Ok c.
Proof.
  intros Hkey Hc. rewrite !(split_field _ _ _ Hkey), (split_field _ _ _ Hc).
  by rewrite (split_lacks _ _ Hc).
Qed.

(** X13. What [get_label_category] makes of the first line that starts
    with the label, in any file: a line without a comma raises
    [IndexError]; otherwise the category is the text between the first comma
    and the second one or, without a second one, all that follows the
    first, the end of the line included.  Later lines are not read. *)
Theorem get_label_category_first_line (mapping label line : string) :
  find (λ l, Py.startswith l label) (Py.readlines mapping) = Some line →
  (lacks "," line → get_label_category mapping label = Raise IndexError) ∧
  (∀ key c,
     lacks "," key → lacks "," c →
     line = key +:+ String "," c ∨
     (∃ rest, line = key +:+ String "," (c +:+ String "," rest)) →
     get_label_category mapping label = Ok (Some c)).
Proof.
  intros Hfind. unfold get_label_category. rewrite scan_lines_find, Hfind. split.
  - intros Hline. unfold CSV_SEPARATOR. by rewrite (split_lacks _ _ Hline).
  - intros key c Hkey Hc Hline. unfold CSV_SEPARATOR.
    destruct (split_second key c EmptyString Hkey Hc) as [H1 _].
    destruct Hline as [->|[rest ->]].
    + by rewrite H1.
    + destruct (split_second key c rest Hkey Hc) as [_ H2]. by rewrite H2.
Qed.

Lemma get_label_category_first_line_witness :
  get_label_category "Sky;Nature" "Sky" = Raise IndexError ∧
  get_label_category
    ("Car,Vehicles" +:+ String "010" ("Sky,Nature,Outdoor" +:+ String "010" EmptyString))
    "Sky"
  = Ok (Some "Nature").
Proof.
  split.
  - apply (get_label_category_first_line "Sky;Nature" "Sky" "Sky;Nature");
      [reflexivity|]. simpl. repeat split; done.
  - apply (get_label_category_first_line
             ("Car,Vehicles" +:+
              String "010" ("Sky,Nature,Outdoor" +:+ String "010" EmptyString))
             "Sky" ("Sky,Nature,Outdoor" +:+ String "010" EmptyString))
      with (key := "Sky"); [reflexivity| | |].
    + simpl. repeat split; done.
    + simpl. repeat split; done.
    + right. by exists ("Outdoor" +:+ String "010" EmptyString).
Defined.

Example third_column_ignored :
  get_label_category ("Sky,Nature,Outdoor" +:+ String "010" EmptyString) "Sky"
  = Ok (Some "Nature").
Proof. reflexivity. Qed.

(** X14. A label that no line starts with has no category, and a label
    that has one gets it from a line that starts with it: the lookup
    never answers from a line that does not begin with the label. *)
Theorem get_label_category_from_matching_line (mapping label : string) :
  (Forall (λ line, Py.startswith line label = false) (Py.readlines mapping) →
   get_label_category mapping label = Ok None) ∧
  (∀ category,
     get_label_category mapping label = Ok (Some category) →
     ∃ line, line ∈ Py.readlines mapping ∧
             Py.startswith line label = true ∧
             Py.index (Py.split CSV_SEPARATOR line) 1 = Ok category).
Proof.
  unfold get_label_category. rewrite scan_lines_find. split.
  - intros Hnone.
    destruct (find _ _) as [line|] eqn:Hfind; [|done].
    apply find_Some_elem in Hfind as [Hin Hstart].
    apply (proj1 (Forall_forall _ _) Hnone) in Hin. congruence.
  - intros category.
    destruct (find _ _) as [line|] eqn:Hfind; [|done].
    apply find_Some_elem in Hfind as [Hin Hstart].
    destruct (Py.index _ 1) as [c|e] eqn:Hidx; [|done].
    intros [= <-]. by exists line.
Qed.

Lemma get_label_category_from_matching_line_witness :
  get_label_category sample_mapping "Tree" = Ok None.
Proof.
  apply (get_label_category_from_matching_line sample_mapping "Tree").
  repeat constructor.
Defined.

(** ** The dictionary of bounding boxes *)

Lemma dict_set_NoDup {V : Type} (d : list (string * V)) (k : string) (v : V) :
  NoDup (Py.dict_keys d) → NoDup (Py.dict_keys (Py.dict_set String.eqb d k v)).
Proof.
  unfold Py.dict_keys. induction d as [|[k' v'] d IH]; simpl.
  { intros _. apply NoDup_singleton. }
  intros [Hk' Hd]%NoDup_cons. destruct (String.eqb_spec k' k) as [->|Hne]; simpl.
  - by apply NoDup_cons.
  - apply NoDup_cons. split; [|by apply IH].
    intros [->|Hin]%(dict_keys_set String.eqb); done.
Qed.

Lemma dict_set_fresh {V : Type} (d : list (string * V)) (k : string) (v : V) :
  k ∉ Py.dict_keys d → Py.dict_set String.eqb d k v = d ++ [(k, v)].
Proof.
  unfold Py.dict_keys. induction d as [|[k' v'] d IH]; simpl; [done|].
  intros [Hne Hd]%not_elem_of_cons.
  destruct (String.eqb_spec k' k) as [->|_]; [done|]. by rewrite IH.
Qed.

Lemma extract_step_NoDup (min_confidence : float) (es : list (string * instance))
    (result : list (string * bounding_box)) :
  NoDup (Py.dict_keys result) →
  NoDup (Py.dict_keys (fold_left (extract_step min_confidence) es result)).
Proof.
  revert result. induction es as [|e es IH]; intros result Hresult; [done|].
  simpl. apply IH. unfold extract_step.
  destruct (confident min_confidence e.2); [by apply dict_set_NoDup|done].
Qed.

(** X15. The result of [extract_bounding_boxes] is a dictionary: no key
    occurs twice in it, whatever the labels, also when two labels have the
    same name. *)
Theorem extract_bounding_boxes_keys_NoDup (labels : list label) (min_confidence : float) :
  NoDup (Py.dict_keys (extract_bounding_boxes labels min_confidence)).
Proof.
  unfold extract_bounding_boxes. rewrite extract_entries.
  apply extract_step_NoDup. constructor.
Qed.

Lemma find_elem_is_Some {A : Type} (p : A → bool) (l : list A) (x : A) :
  x ∈ l → p x = true → is_Some (find p l).
Proof.
  intros Hin Hp. induction l as [|y l IH]; [by apply elem_of_nil in Hin|].
  simpl. destruct (p y) eqn:Hy; [by eexists|].
  apply elem_of_cons in Hin as [->|Hin]; [congruence|by apply IH].
Qed.

(** X16. Lowering the threshold never removes a key: every key that
    [extract_bounding_boxes] gives for a threshold is also given for a
    lower one. *)
Theorem extract_bounding_boxes_lower_threshold
    (labels : list label) (low high : float) (k : string) :
  (low <=? high)%float = true →
  is_Some (box_dict_get (extract_bounding_boxes labels high) k) →
  is_Some (box_dict_get (extract_bounding_boxes labels low) k).
Proof.
  intros Hle. unfold extract_bounding_boxes.
  rewrite !extract_entries, !extract_entries_get.
  destruct (find _ _) as [e|] eqn:Hhigh; [|by intros []]. intros _.
  apply find_Some_elem in Hhigh as [Hin [Hk Hconf]%andb_true_iff].
  destruct (find_elem_is_Some
              (λ e, String.eqb e.1 k && confident low e.2)
              (reverse (labels ≫= label_entries)) e Hin) as [e' ->]; [|done].
  rewrite Hk. unfold confident in *. simpl.
  by apply (FloatOrder.leb_trans _ high).
Qed.

Lemma extract_bounding_boxes_lower_threshold_witness :
  is_Some (box_dict_get (extract_bounding_boxes [sky; car] 50) "Car-2").
Proof.
  apply (extract_bounding_boxes_lower_threshold [sky; car] 50 75 "Car-2").
  - reflexivity.
  - by eexists.
Defined.

Lemma label_entries_lookup (l : label) (i : nat) (e : string * instance) :
  label_entries l !! i = Some e → e.1 = instance_key (Name l) i.
Proof.
  unfold label_entries, enumerate. rewrite list_lookup_fmap, list_lookup_imap.
  destruct (default [] (Instances l) !! i); [|done]. by intros [= <-].
Qed.

Lemma label_entries_NoDup (l : label) : NoDup (label_entries l).*1.
Proof.
  apply NoDup_alt. intros i j k. rewrite !list_lookup_fmap.
  destruct (label_entries l !! i) as [ei|] eqn:Hi; [|done].
  destruct (label_entries l !! j) as [ej|] eqn:Hj; [|done].
  apply label_entries_lookup in Hi, Hj. simpl. intros [= <-] [= Hk].
  rewrite Hi, Hj in Hk. by apply instance_key_inj in Hk as [_ ->].
Qed.

Lemma entries_NoDup (labels : list label) :
  NoDup (Name <$> labels) → NoDup (labels ≫= label_entries).*1.
Proof.
  induction labels as [|l labels IH]; [constructor|].
  rewrite fmap_cons, NoDup_cons. intros [Hl Hlabels].
  rewrite bind_cons, fmap_app. apply NoDup_app. split; [apply label_entries_NoDup|].
  split; [|by apply IH].
  intros k [e [-> He]]%list_elem_of_fmap [e' [Hk He']]%list_elem_of_fmap.
  apply elem_of_label_entries in He as (i & _ & Hi).
  apply elem_of_entries in He' as (l' & i' & Hl' & _ & Hi').
  rewrite Hi, Hi' in Hk. apply instance_key_inj in Hk as [Hname _].
  apply Hl. rewrite Hname. apply list_elem_of_fmap. by exists l'.
Qed.

Lemma extract_step_fresh (min_confidence : float) (es : list (string * instance))
    (result : list (string * bounding_box)) :
  NoDup (es.*1) →
  (∀ k, k ∈ es.*1 → k ∉ Py.dict_keys result) →
  fold_left (extract_step min_confidence) es result
  = result ++ ((λ e, (e.1, BoundingBox e.2))
                 <$> filter (λ e, confident min_confidence e.2 = true) es).
Proof.
  revert result. induction es as [|e es IH]; intros result Hes Hfresh.
  { simpl. by rewrite app_nil_r. }
  rewrite fmap_cons in Hes. apply NoDup_cons in Hes as [He Hes].
  simpl. unfold extract_step at 2. rewrite filter_cons.
  destruct (confident min_confidence e.2) eqn:Hconf.
  - rewrite decide_True by done.
    rewrite dict_set_fresh by (apply Hfresh; rewrite fmap_cons; left).
    rewrite IH, <- app_assoc; [done|done|].
    intros k Hk. unfold Py.dict_keys. rewrite fmap_app, elem_of_app. simpl.
    intros [Hin|Hin%list_elem_of_singleton].
    + by apply (Hfresh k); [rewrite fmap_cons; right|].
    + by subst.
  - rewrite decide_False by done.
    apply IH; [done|]. intros k Hk. apply Hfresh. rewrite fmap_cons. by right.
Qed.

Lemma extract_distinct_names (labels : list label) (min_confidence : float) :
  NoDup (Name <$> labels) →
  extract_bounding_boxes labels min_confidence
  = confident_entries labels min_confidence.
Proof.
  intros Hnames. unfold extract_bounding_boxes, confident_entries.
  rewrite extract_entries, extract_step_fresh; [done|by apply entries_NoDup|].
  intros k _. apply not_elem_of_nil.
Qed.

(** X17. When no two labels have the same name, the dictionary holds one
    entry for each instance that passes the threshold, with the key
    [name-i] and the bounding box of the instance, in the order of the
    labels and of their instances. *)
Theorem extract_bounding_boxes_distinct_names
    (labels : list label) (min_confidence : float) :
  NoDup (Name <$> labels) →
  extract_bounding_boxes labels min_confidence
  = confident_entries labels min_confidence.
Proof. apply extract_distinct_names. Qed.

Lemma extract_bounding_boxes_distinct_names_witness :
  extract_bounding_boxes [sky; car] 75 = confident_entries [sky; car] 75.
Proof.
  apply (extract_bounding_boxes_distinct_names [sky; car] 75).
  apply (bool_decide_unpack _). by vm_compute.
Defined.

(** ** The crops *)

Lemma int_not_negative (x : float) (z : Z) :
  SFnot_negative (Prim2SF x) → Py.int x = Ok z → 0 <= z.
Proof.
  unfold Py.int, Py.to_integer.
  destruct (Prim2SF x) as [[]|[]| |[] m e]; try done; try (intros _ [= <-]; lia).
  intros _ [= <-]. unfold Py.scaled. cbn [cond_Zopp].
  destruct (0 <=? e) eqn:He.
  - apply Z.leb_le in He. apply Z.mul_nonneg_nonneg; [lia|]. by apply Z.pow_nonneg.
  - apply Z.leb_gt in He. apply Z.quot_pos; [lia|].
    apply Z.pow_pos_nonneg; lia.
Qed.

Lemma product_not_negative (x : float) (n : Z) :
  (0 <=? x)%float = true → SFnot_negative (Prim2SF (x * Py.float_of_int n)).
Proof.
  intros Hx. rewrite FloatAxioms.mul_spec.
  apply SFmul_not_negative;
    [by apply leb_zero_not_negative|apply float_of_int_not_negative].
Qed.

Lemma int_product_not_negative (x : float) (n z : Z) :
  (0 <=? x)%float = true → Py.int (x * Py.float_of_int n) = Ok z → 0 <= z.
Proof. intros Hx. by apply int_not_negative, product_not_negative. Qed.

Lemma rectangle_of_not_negative
    (bbox : bounding_box) (width height : Z) (r : rectangle) :
  (0 <=? Left bbox)%float = true →
  (0 <=? Top bbox)%float = true →
  (0 <=? Width bbox)%float = true →
  (0 <=? Height bbox)%float = true →
  pixel_rectangle bbox width height = Ok r →
  rectangle_wf r.
Proof.
  intros Hl Ht Hw Hh. unfold pixel_rectangle.
  destruct (Py.int (Left bbox * _)) as [left|] eqn:Hleft; [|done].
  destruct (Py.int (Top bbox * _)) as [top|] eqn:Htop; [|done].
  destruct (Py.int (Width bbox * _)) as [w|] eqn:Hwidth; [|done].
  destruct (Py.int (Height bbox * _)) as [h|] eqn:Hheight; [|done].
  cbn [mbind result_bind]. intros [= <-].
  unfold rectangle_wf. cbn [rect_left rect_top rect_right rect_bottom].
  pose proof (int_product_not_negative _ _ _ Hl Hleft).
  pose proof (int_product_not_negative _ _ _ Ht Htop).
  pose proof (int_product_not_negative _ _ _ Hw Hwidth).
  pose proof (int_product_not_negative _ _ _ Hh Hheight).
  lia.
Qed.

(** X18. A bounding box whose fields are not negative never gives a
    rectangle with a negative coordinate or with its corners out of order:
    when [make_cropped_images] computes the rectangle of such a box on an
    image of [width] by [height] pixels, left and top are at least zero,
    right is at least left and bottom at least top. *)
Theorem pixel_rectangle_well_formed
    (bbox : bounding_box) (width height : Z) (r : rectangle) :
  (0 <=? Left bbox)%float = true →
  (0 <=? Top bbox)%float = true →
  (0 <=? Width bbox)%float = true →
  (0 <=? Height bbox)%float = true →
  0 <= width < 2 ^ 63 →
  0 <= height < 2 ^ 63 →
  pixel_rectangle bbox width height = Ok r →
  rectangle_wf r.
Proof. intros Hl Ht Hw Hh _ _. by apply rectangle_of_not_negative. Qed.

Lemma pixel_rectangle_well_formed_witness :
  rectangle_wf (Rectangle 100 100 600 350).
Proof.
  apply (pixel_rectangle_well_formed sample_box 1000 500 (Rectangle 100 100 600 350));
    first [lia | by vm_compute].
Defined.

Lemma pixel_rectangle_fraction (bbox : bounding_box) (width height : Z) :
  fraction_box bbox →
  ∃ r, pixel_rectangle bbox width height = Ok r ∧ rectangle_wf r.
Proof.
  intros [[Hl Ht] [Hw Hh]].
  assert (∃ r, pixel_rectangle bbox width height = Ok r) as [r Hr].
  { unfold pixel_rectangle.
    rewrite (int_floor_product _ _ (proj1 Hl)), (int_floor_product _ _ (proj1 Ht)),
      (int_floor_product _ _ (proj1 Hw)), (int_floor_product _ _ (proj1 Hh)).
    destruct (floor_product (Left bbox) width Hl) as [left ->].
    destruct (floor_product (Top bbox) height Ht) as [top ->].
    destruct (floor_product (Width bbox) width Hw) as [w ->].
    destruct (floor_product (Height bbox) height Hh) as [h ->].
    by eexists. }
  exists r. split; [done|].
  by apply (rectangle_of_not_negative bbox width height r
              (proj1 Hl) (proj1 Ht) (proj1 Hw) (proj1 Hh)).
Qed.

(** ** The crops, one by one *)

Lemma cropped_fraction_boxes (save : rectangle → string → result unit)
    (image_extension : string) (img : image)
    (bounding_boxes : list (string * bounding_box)) (output_dir : string) :
  Forall (λ e, fraction_box e.2) bounding_boxes →
  ∃ rects,
    Forall2 (λ e r, pixel_rectangle e.2 (width img) (height img) = Ok r ∧ rectangle_wf r)
      bounding_boxes rects ∧
    (Forall2 (λ e r, save r (crop_path image_extension output_dir e.1) = Ok tt)
       bounding_boxes rects →
     make_cropped_images save image_extension img bounding_boxes output_dir
     = (crop_effects image_extension output_dir bounding_boxes rects, Ok tt)) ∧
    (∀ e,
       outcome (make_cropped_images save image_extension img bounding_boxes output_dir)
       = Raise e →
       ∃ entry r,
         (entry, r) ∈ zip bounding_boxes rects ∧
         save r (crop_path image_extension output_dir entry.1) = Raise e).
Proof.
  induction bounding_boxes as [|[name bbox] boxes IH].
  { intros _. exists []. split; [constructor|]. split; [done|]. by intros e. }
  intros [Hbox Hboxes]%Forall_cons.
  destruct (IH Hboxes) as (rects & Hrects & Hrun & Hraise).
  destruct (pixel_rectangle_fraction bbox (width img) (height img) Hbox) as (r & Hr & Hwf).
  exists (r :: rects). split; [by constructor|]. split.
  - intros [Hsave Hsaves]%Forall2_cons.
    by rewrite (make_cropped_images_cons _ _ _ _ _ _ _ r Hr Hsave), (Hrun Hsaves).
  - intros e. destruct (save r (crop_path image_extension output_dir name)) as [[]|e']
      eqn:Hsave.
    + rewrite (make_cropped_images_cons _ _ _ _ _ _ _ r Hr Hsave).
      intros (entry & r' & Hin & Hentry)%Hraise.
      exists entry, r'. split; [by right|done].
    + rewrite (make_cropped_images_cons_raise _ _ _ _ _ _ _ r e' Hr Hsave).
      intros [= <-]. exists (name, bbox), r. split; [by left|done].
Qed.

(** X19. When every box of the dictionary lies inside the image, its four
    fields being fractions, the rectangle of every entry is computed and is
    well formed, so that [make_cropped_images] can only fail in the saving
    of a crop: an exception it raises is that of the save of an entry; and
    when every crop is saved, it raises nothing and saves exactly one crop
    for each entry, in the order of the dictionary, under the name of the
    entry followed by the extension of the image. *)
Theorem make_cropped_images_fraction_boxes (save : rectangle → string → result unit)
    (image_extension : string) (img : image)
    (bounding_boxes : list (string * bounding_box)) (output_dir : string) :
  0 <= width img < 2 ^ 63 →
  0 <= height img < 2 ^ 63 →
  Forall (λ e, fraction_box e.2) bounding_boxes →
  ∃ rects,
    Forall2 (λ e r, pixel_rectangle e.2 (width img) (height img) = Ok r ∧ rectangle_wf r)
      bounding_boxes rects ∧
    (Forall2 (λ e r, save r (crop_path image_extension output_dir e.1) = Ok tt)
       bounding_boxes rects →
     make_cropped_images save image_extension img bounding_boxes output_dir
     = (crop_effects image_extension output_dir bounding_boxes rects, Ok tt)) ∧
    (∀ e,
       outcome (make_cropped_images save image_extension img bounding_boxes output_dir)
       = Raise e →
       ∃ entry r,
         (entry, r) ∈ zip bounding_boxes rects ∧
         save r (crop_path image_extension output_dir entry.1) = Raise e).
Proof. intros _ _. apply cropped_fraction_boxes. Qed.

Lemma make_cropped_images_fraction_boxes_witness :
  make_cropped_images sample_save ".jpg" {| width := 1000; height := 500 |}
    [("Car-0", sample_box); ("Car-2", sample_box)] "crops"
  = ([CropSave (Rectangle 100 100 600 350) "crops/Car-0.jpg";
      CropSave (Rectangle 100 100 600 350) "crops/Car-2.jpg"],
     Ok tt).
Proof.
  destruct (make_cropped_images_fraction_boxes sample_save ".jpg"
              {| width := 1000; height := 500 |}
              [("Car-0", sample_box); ("Car-2", sample_box)] "crops")
    as (rects & Hrects & Hrun & _).
  - simpl. lia.
  - simpl. lia.
  - repeat constructor.
  - apply Forall2_cons_inv_l in Hrects as (r0 & rects0 & [Hr0 _] & Hrects & ->).
    apply Forall2_cons_inv_l in Hrects as (r2 & rects2 & [Hr2 _] & Hrects & ->).
    apply Forall2_nil_inv_l in Hrects as ->.
    vm_compute in Hr0, Hr2. injection Hr0 as <-. injection Hr2 as <-.
    rewrite Hrun; [reflexivity|]. repeat constructor.
Defined.

Lemma int_nan_product (x y : float) :
  is_nan x = true → Py.int (x * y) = Raise ValueError.
Proof.
  intros Hx%float_nan_spec. unfold Py.int, Py.to_integer.
  by rewrite FloatAxioms.mul_spec, Hx.
Qed.

(** X20. A bounding box with a field that is not a number gives no
    rectangle: the computation raises, and it raises [ValueError] at the
    first assignment when the field is [Left]. *)
Theorem pixel_rectangle_nan (bbox : bounding_box) (width height : Z) :
  (is_nan (Left bbox) = true →
   pixel_rectangle bbox width height = Raise ValueError) ∧
  (is_nan (Left bbox) = true ∨ is_nan (Top bbox) = true ∨
   is_nan (Width bbox) = true ∨ is_nan (Height bbox) = true →
   ∃ e, pixel_rectangle bbox width height = Raise e).
Proof.
  unfold pixel_rectangle. split.
  - intros Hnan. by rewrite (int_nan_product _ _ Hnan).
  - intros [Hnan|[Hnan|[Hnan|Hnan]]];
      rewrite (int_nan_product _ _ Hnan);
      repeat (match goal with
              | |- context [Py.int ?x ≫= _] => destruct (Py.int x)
              end; cbn [mbind result_bind]);
      by eexists.
Qed.

Lemma pixel_rectangle_nan_witness :
  pixel_rectangle nan_box 1000 500 = Raise ValueError.
Proof. apply (pixel_rectangle_nan nan_box 1000 500). reflexivity. Defined.

(** X21. The first entry whose rectangle cannot be computed, or whose crop
    cannot be saved, ends [make_cropped_images]: when the entries before it
    were cropped and saved without exception, their crops are the effects
    of the run, the exception is its outcome, and no entry after it is
    cropped. *)
Theorem make_cropped_images_stop_at_exception (save : rectangle → string → result unit)
    (image_extension : string) (img : image)
    (before after : list (string * bounding_box)) (name : string) (bbox : bounding_box)
    (output_dir : string) (e : exn) :
  outcome (make_cropped_images save image_extension img before output_dir) = Ok tt →
  pixel_rectangle bbox (width img) (height img) = Raise e ∨
  (∃ box, pixel_rectangle bbox (width img) (height img) = Ok box ∧
          save box (crop_path image_extension output_dir name) = Raise e) →
  make_cropped_images save image_extension img (before ++ (name, bbox) :: after) output_dir
  = (trace (make_cropped_images save image_extension img before output_dir), Raise e).
Proof.
  unfold make_cropped_images, crop_path. intros Hbefore Hentry.
  destruct (for_each _ before) as [t0 [[]|e0]] eqn:Hrun; [|done].
  rewrite (for_each_app_ok _ _ _ _ Hrun).
  rewrite (for_each_cons_raise _ _ _ [] e); [by rewrite app_nil_r|].
  destruct Hentry as [Hbox|(box & Hbox & Hsave)].
  - by rewrite Hbox.
  - rewrite Hbox, lift_bind_ok. cbv zeta. by rewrite Hsave.
Qed.

Lemma make_cropped_images_stop_at_exception_witness :
  make_cropped_images sample_save ".jpg" {| width := 1000; height := 500 |}
    ([("Car-0", sample_box)] ++ ("Car-1", nan_box) :: [("Car-2", sample_box)]) "crops"
  = ([CropSave (Rectangle 100 100 600 350) "crops/Car-0.jpg"], Raise ValueError) ∧
  make_cropped_images sample_save ".jpg" {| width := 1000; height := 500 |}
    ([("Car-0", sample_box)] ++ ("Car-1", thin_box) :: [("Car-2", sample_box)]) "crops"
  = ([CropSave (Rectangle 100 100 600 350) "crops/Car-0.jpg"], Raise ValueError).
Proof.
  split.
  - apply (make_cropped_images_stop_at_exception sample_save ".jpg"
             {| width := 1000; height := 500 |}
             [("Car-0", sample_box)] [("Car-2", sample_box)] "Car-1" nan_box "crops").
    + by vm_compute.
    + left. by vm_compute.
  - apply (make_cropped_images_stop_at_exception sample_save ".jpg"
             {| width := 1000; height := 500 |}
             [("Car-0", sample_box)] [("Car-2", sample_box)] "Car-1" thin_box "crops").
    + by vm_compute.
    + right. exists (Rectangle 100 100 100 350). split; by vm_compute.
Defined.

Lemma confident_entries_boxes (labels : list label) (min_confidence : float)
    (P : bounding_box → Prop) :
  (∀ l inst, l ∈ labels → inst ∈ default [] (Instances l) → P (BoundingBox inst)) →
  Forall (λ e, P e.2) (confident_entries labels min_confidence).
Proof.
  intros HP. unfold confident_entries. apply Forall_fmap, Forall_forall.
  intros e [_ (l & i & Hl & Hi & _)%elem_of_entries]%list_elem_of_filter. simpl.
  apply (HP l); [done|]. by apply list_elem_of_lookup_2 in Hi.
Qed.

(** X22. crop.py from the detection result on: when the labels have
    distinct names and the boxes of their instances lie inside the image,
    the rectangle of every instance whose confidence is at least 75 is
    computed; and when each of these crops is saved, the script makes the
    output directory and then saves one crop for each such instance, in the
    order of the labels and of their instances, named [name-i] with the
    extension of the image, and ends without an exception. *)
Theorem crop_main_crops_confident_instances (save : rectangle → string → result unit)
    (image_extension : string) (img : image) (resp : response) (output_dir : string)
    (labels : list label) :
  Labels resp = Some labels →
  NoDup (Name <$> labels) →
  (∀ l inst, l ∈ labels → inst ∈ default [] (Instances l) →
             fraction_box (BoundingBox inst)) →
  0 <= width img < 2 ^ 63 →
  0 <= height img < 2 ^ 63 →
  let entries := confident_entries labels extract_min_confidence in
  ∃ rects,
    Forall2 (λ e r, pixel_rectangle e.2 (width img) (height img) = Ok r ∧ rectangle_wf r)
      entries rects ∧
    (Forall2 (λ e r, save r (crop_path image_extension output_dir e.1) = Ok tt)
       entries rects →
     crop_main save image_extension img resp output_dir
     = (Makedirs output_dir :: crop_effects image_extension output_dir entries rects,
        Ok tt)).
Proof.
  intros Hlabels Hnames Hboxes _ _ entries. unfold crop_main.
  rewrite Hlabels. cbn [iterable]. rewrite lift_bind_ok.
  rewrite (extract_distinct_names _ _ Hnames). fold entries.
  destruct (cropped_fraction_boxes save image_extension img entries output_dir)
    as (rects & Hrects & Hrun & _).
  { by apply confident_entries_boxes. }
  exists rects. split; [done|]. intros Hsaves.
  by rewrite perform_bind, (Hrun Hsaves).
Qed.

Lemma crop_main_crops_confident_instances_witness :
  crop_main sample_save ".jpg" {| width := 1000; height := 500 |}
    (sample_response None) "crops"
  = ([Makedirs "crops";
      CropSave (Rectangle 100 100 600 350) "crops/Car-0.jpg";
      CropSave (Rectangle 100 100 600 350) "crops/Car-2.jpg"],
     Ok tt).
Proof.
  destruct (crop_main_crops_confident_instances sample_save ".jpg"
              {| width := 1000; height := 500 |}
              (sample_response None) "crops" [sky; car])
    as (rects & Hrects & Hrun).
  - reflexivity.
  - apply (bool_decide_unpack _). by vm_compute.
  - intros l inst. rewrite !elem_of_cons, elem_of_nil.
    intros [->|[->|[]]]; simpl; rewrite ?elem_of_cons, elem_of_nil;
      [by intros []|].
    intros [->|[->|[->|[]]]]; repeat split; reflexivity.
  - simpl. lia.
  - simpl. lia.
  - change (confident_entries [sky; car] extract_min_confidence)
      with [("Car-0", sample_box); ("Car-2", sample_box)] in Hrects, Hrun.
    apply Forall2_cons_inv_l in Hrects as (r0 & rects0 & [Hr0 _] & Hrects & ->).
    apply Forall2_cons_inv_l in Hrects as (r2 & rects2 & [Hr2 _] & Hrects & ->).
    apply Forall2_nil_inv_l in Hrects as ->.
    vm_compute in Hr0, Hr2. injection Hr0 as <-. injection Hr2 as <-.
    rewrite Hrun; [reflexivity|]. repeat constructor.
Defined.

(** X23. Without [Labels] in the detection result, crop.py raises
    [TypeError] in [extract_bounding_boxes], before the output directory is
    made; with [Labels], the directory is made whatever the labels are,
    also when there is nothing to crop or a crop fails. *)
Theorem crop_main_output_dir (save : rectangle → string → result unit)
    (image_extension : string) (img : image) (resp : response) (output_dir : string) :
  (Labels resp = None →
   crop_main save image_extension img resp output_dir = ([], Raise TypeError)) ∧
  (is_Some (Labels resp) →
   ∃ t, trace (crop_main save image_extension img resp output_dir)
        = Makedirs output_dir :: t).
Proof.
  unfold crop_main. split.
  - by intros ->.
  - intros [labels ->]. cbn [iterable]. rewrite lift_bind_ok, perform_bind.
    by eexists.
Qed.

Lemma crop_main_output_dir_witness :
  crop_main sample_save ".jpg" {| width := 1000; height := 500 |}
    {| ImageProperties := None; Labels := None |} "crops"
  = ([], Raise TypeError) ∧
  ∃ t, trace (crop_main sample_save ".jpg" {| width := 1000; height := 500 |}
                {| ImageProperties := None; Labels := Some [] |} "crops")
       = Makedirs "crops" :: t.
Proof.
  split.
  - apply (crop_main_output_dir sample_save ".jpg" {| width := 1000; height := 500 |}
             {| ImageProperties := None; Labels := None |} "crops").
    reflexivity.
  - apply (crop_main_output_dir sample_save ".jpg" {| width := 1000; height := 500 |}
             {| ImageProperties := None; Labels := Some [] |} "crops").
    by eexists.
Defined.
